(** * pdf2epub: a shallow embedding of [src/main.py]

    The converter is command-line glue around four libraries (PyMuPDF,
    Pillow, pypdf, ebooklib) and the file system.  The embedding keeps the
    control flow of every function of [main.py] -- its [try]/[except]
    blocks, its loops, its truthiness tests -- and takes the libraries as
    an explicit environment [Env] whose calls may return or raise.

    Conventions:
    - a Python [str] is the list of its Unicode code points;
    - [None]-able values are [option]s and truthiness is spelled out;
    - a computation is a function from the world (file system and log)
      to a result, which is a value or a raised [Exception], and the world
      it leaves behind. *)

From stdpp Require Import base option list strings pretty gmap.
From Stdlib Require Import ZArith NArith Ascii.

Local Open Scope Z_scope.

(** ** Python strings *)

Abbreviation str := (list N).
Abbreviation bytes := (list N).

(** A literal of the source, as code points. *)
Definition lit (s : string) : str := N_of_ascii <$> String.list_ascii_of_string s.

(** [len(s)] rendered by an f-string. *)
Definition str_of_nat (n : nat) : str := lit (pretty n).

(** [str.isspace] on one code point: the characters CPython's
    [_PyUnicode_IsWhitespace] accepts. *)
Definition isspace (c : N) : bool :=
  ((9 <=? c) && (c <=? 13) || (28 <=? c) && (c <=? 32) || (c =? 133)
   || (c =? 160) || (c =? 5760) || (8192 <=? c) && (c <=? 8202)
   || (c =? 8232) || (c =? 8233) || (c =? 8239) || (c =? 8287)
   || (c =? 12288))%N.

(** The line boundaries of [str.splitlines]: LF, VT, FF, CR, FS, GS, RS,
    NEL, LS and PS. *)
Definition islinebreak (c : N) : bool :=
  ((10 <=? c) && (c <=? 13) || (28 <=? c) && (c <=? 30) || (c =? 133)
   || (c =? 8232) || (c =? 8233))%N.

Fixpoint lstrip (s : str) : str :=
  match s with
  | c :: rest => if isspace c then lstrip rest else s
  | [] => []
  end.

Definition rstrip (s : str) : str := reverse (lstrip (reverse s)).

(** [s.strip()] *)
Definition strip (s : str) : str := rstrip (lstrip s).

(** [s.splitlines()]: a line ends at a line boundary, CR LF counts as one
    boundary, and a boundary at the very end opens no further line. *)
Fixpoint splitlines (s : str) : list str :=
  match s with
  | [] => []
  | c :: rest =>
      if islinebreak c then
        [] :: splitlines (if (c =? 13)%N
                          then match rest with
                               | 10%N :: rest' => rest'
                               | _ => rest
                               end
                          else rest)
      else match splitlines rest with
           | [] => [[c]]
           | line :: lines => (c :: line) :: lines
           end
  end.

(** [sep.join(parts)] *)
Fixpoint join (sep : str) (parts : list str) : str :=
  match parts with
  | [] => []
  | [x] => x
  | x :: xs => x ++ sep ++ join sep xs
  end.

(** [s.rfind(c)] for a one-character needle: the highest index, or -1. *)
Fixpoint rfind_from (c : N) (s : str) (i : Z) : Z :=
  match s with
  | [] => -1
  | x :: rest =>
      let j := rfind_from c rest (i + 1) in
      if 0 <=? j then j else if (x =? c)%N then i else -1
  end.

Definition rfind (c : N) (s : str) : Z := rfind_from c s 0.

(** [c in s] *)
Definition contains (c : N) (s : str) : bool := existsb (N.eqb c) s.

(** [s.split(c, 1)] when [c in s]: the text before and after the first
    occurrence. *)
Fixpoint split_first (c : N) (s : str) : str * str :=
  match s with
  | [] => ([], [])
  | x :: rest =>
      if (x =? c)%N then ([], rest)
      else let '(k, v) := split_first c rest in (x :: k, v)
  end.

Definition newline : str := [10%N].
Definition slash : N := 47.
Definition dot : N := 46.

(** [os.path.basename] (posixpath): what follows the last slash. *)
Definition basename (p : str) : str := drop (Z.to_nat (rfind slash p + 1)) p.

(** [os.path.splitext] (posixpath): the extension starts at the last dot
    of the last path component, unless only dots precede it there. *)
Definition splitext (p : str) : str * str :=
  let sepIndex := rfind slash p in
  let dotIndex := rfind dot p in
  if (sepIndex <? dotIndex)
     && existsb (fun c => negb (c =? dot)%N)
          (take (Z.to_nat (dotIndex - (sepIndex + 1)))
                (drop (Z.to_nat (sepIndex + 1)) p))
  then (take (Z.to_nat dotIndex) p, drop (Z.to_nat dotIndex) p)
  else (p, []).

(** Truthiness of an optional string, list or mapping: [None] and the
    empty one are falsy. *)
Definition truthy {A} (o : option (list A)) : bool :=
  match o with
  | Some (_ :: _) => true
  | _ => false
  end.

(** ** Python dictionaries with string keys

    A [dict] keeps insertion order, and [d[k] = v] on a present key
    replaces the value where the key already stands. *)

Abbreviation dict := (list (str * str)).

Fixpoint dict_set (d : dict) (k v : str) : dict :=
  match d with
  | [] => [(k, v)]
  | (k', v') :: rest =>
      if decide (k' = k) then (k, v) :: rest else (k', v') :: dict_set rest k v
  end.

(** [d.get(k, default)] *)
Fixpoint dict_get (d : dict) (k default : str) : str :=
  match d with
  | [] => default
  | (k', v') :: rest => if decide (k' = k) then v' else dict_get rest k default
  end.

(** [metadata.items()] once [metadata] is known to be truthy. *)
Definition dict_items (o : option dict) : dict := default [] o.

(** ** Exceptions, results and the world *)

(** An instance of Python's [Exception]; [str(e)] is its message.
    [KeyboardInterrupt] and [SystemExit] are not [Exception]s and are
    outside the model. *)
Inductive Exception := Exc (msg : str).

Definition exc_str (e : Exception) : str := let 'Exc msg := e in msg.

Inductive result (A : Type) : Type :=
| Ok (a : A)
| Raise (e : Exception).
Arguments Ok {A} a.
Arguments Raise {A} e.

(** The [logging] levels with their numeric values. *)
Inductive Level := DEBUG | INFO | WARNING | ERROR | CRITICAL.

Definition levelno (l : Level) : Z :=
  match l with
  | DEBUG => 10 | INFO => 20 | WARNING => 30 | ERROR => 40 | CRITICAL => 50
  end.

Record LogRecord := {
  levelname : Level;
  message : str;
  exc_info : option Exception
}.

(** A path names a regular file with its content, or a directory.  Paths
    are keys as they are written: two spellings of one file are two keys. *)
Inductive Entry := File (data : bytes) | Directory.

Record World := {
  fs : gmap str Entry;
  log : list LogRecord
}.

Definition M (A : Type) : Type := World -> result A * World.

#[export] Instance M_ret : MRet M := fun A a w => (Ok a, w).

#[export] Instance M_bind : MBind M := fun A B f m w =>
  match m w with
  | (Ok a, w') => f a w'
  | (Raise e, w') => (Raise e, w')
  end.

(** [try: body / except Exception as e: handler e] *)
Definition try_except {A} (body : M A) (handler : Exception -> M A) : M A :=
  fun w =>
    match body w with
    | (Ok a, w') => (Ok a, w')
    | (Raise e, w') => handler e w'
    end.

(** A library call that neither reads nor changes the world. *)
Definition lift {A} (r : result A) : M A := fun w => (r, w).

(** A library call that reads the file system. *)
Definition call {A} (f : gmap str Entry -> result A) : M A :=
  fun w => (f (fs w), w).

(** A library call that writes [path]: when it returns, the file holds
    the bytes it produced; when it raises, the file system is as before. *)
Definition write_file (f : gmap str Entry -> result bytes) (path : str) : M unit :=
  fun w =>
    match f (fs w) with
    | Ok data => (Ok tt, {| fs := <[path := File data]> (fs w); log := log w |})
    | Raise e => (Raise e, w)
    end.

(** A [for] loop that threads an accumulator; a raise ends it. *)
Fixpoint foldM {A B} (f : B -> A -> M B) (acc : B) (l : list A) : M B :=
  match l with
  | [] => mret acc
  | x :: xs => acc' ← f acc x; foldM f acc' xs
  end.

(** [for x in l: body x] *)
Definition for_each {A} (l : list A) (body : A -> M unit) : M unit :=
  foldM (fun _ x => body x) tt l.

(** [os.path.exists] *)
Definition os_path_exists (files : gmap str Entry) (p : str) : bool :=
  bool_decide (is_Some (files !! p)).

(** [open(p, "rb").read()]; of the ways [open] can fail, a missing file
    and a directory are modelled. *)
Definition open_rb (files : gmap str Entry) (p : str) : result bytes :=
  match files !! p with
  | Some (File data) => Ok data
  | Some Directory => Raise (Exc (lit "[Errno 21] Is a directory: '" ++ p ++ lit "'"))
  | None => Raise (Exc (lit "[Errno 2] No such file or directory: '" ++ p ++ lit "'"))
  end.

(** ** src/logging/Logging.py

    [logger.setLevel(INFO)]: the logger hands a record to its handlers only
    from level INFO up; both handlers then accept it.  [log] is the list of
    records handed over; the log file the file handler appends them to is
    kept as this list and is not an entry of [fs]. *)

Definition logger_level : Level := INFO.

Definition logger_log (l : Level) (msg : str) (exc : option Exception) : M unit :=
  fun w =>
    (Ok tt,
     if levelno logger_level <=? levelno l
     then {| fs := fs w;
             log := log w ++ [{| levelname := l; message := msg; exc_info := exc |}] |}
     else w).

Definition logger_debug (msg : str) : M unit := logger_log DEBUG msg None.
Definition logger_info (msg : str) : M unit := logger_log INFO msg None.
Definition logger_warning (msg : str) : M unit := logger_log WARNING msg None.
Definition logger_error (msg : str) : M unit := logger_log ERROR msg None.

(** [logger.exception(e)]: level ERROR, message [str(e)], with the
    exception attached. *)
Definition logger_exception (e : Exception) : M unit :=
  logger_log ERROR (exc_str e) (Some e).

(** ** The libraries *)

(** bs4: the tags [create_epub_from_text] builds, [soup.new_tag(name)]
    followed by [tag.string = s]. *)
Record Tag := {
  tag_name : str;
  tag_string : option str
}.

Definition new_tag (name : str) : Tag := {| tag_name := name; tag_string := None |}.

Definition set_string (t : Tag) (s : str) : Tag :=
  {| tag_name := tag_name t; tag_string := Some s |}.

(** The entity substitution of bs4's default output formatter. *)
Definition escape_char (c : N) : str :=
  if (c =? 38)%N then lit "&amp;"
  else if (c =? 60)%N then lit "&lt;"
  else if (c =? 62)%N then lit "&gt;"
  else [c].

Definition escape (s : str) : str := concat (escape_char <$> s).

Definition tag_str (t : Tag) : str :=
  lit "<" ++ tag_name t ++ lit ">" ++ escape (default [] (tag_string t))
  ++ lit "</" ++ tag_name t ++ lit ">".

(** [str(soup)] for a soup whose children are the tags appended to it. *)
Definition soup_str (soup : list Tag) : str := concat (tag_str <$> soup).

(** ebooklib: the items this program adds to a book. *)
Inductive Item :=
| EpubHtml (title file_name lang content : str)
| EpubNcx
| EpubNav
| EpubItem (uid file_name media_type content : str).

Record Link := {
  link_href : str;
  link_title : str;
  link_uid : str
}.

(** An entry of [book.spine]: an item id such as ["nav"], or an item. *)
Inductive SpineEntry :=
| SpineId (uid : str)
| SpineItem (item : Item).

(** [epub.EpubBook]: what each call of the program sets on it. *)
Record EpubBook := {
  book_identifier : str;
  book_title : str;
  book_language : str;
  book_authors : list str;
  book_metadata : list (str * str * str);
  book_items : list Item;
  book_toc : list Link;
  book_cover : option (str * bytes);
  book_spine : list SpineEntry
}.

(** [epub.EpubBook()] before any setter has run. *)
Definition EpubBook_new : EpubBook :=
  {| book_identifier := []; book_title := []; book_language := [];
     book_authors := []; book_metadata := []; book_items := [];
     book_toc := []; book_cover := None; book_spine := [] |}.

Definition set_identifier (b : EpubBook) (uid : str) : EpubBook :=
  {| book_identifier := uid; book_title := book_title b;
     book_language := book_language b; book_authors := book_authors b;
     book_metadata := book_metadata b; book_items := book_items b;
     book_toc := book_toc b; book_cover := book_cover b;
     book_spine := book_spine b |}.

Definition set_title (b : EpubBook) (title : str) : EpubBook :=
  {| book_identifier := book_identifier b; book_title := title;
     book_language := book_language b; book_authors := book_authors b;
     book_metadata := book_metadata b; book_items := book_items b;
     book_toc := book_toc b; book_cover := book_cover b;
     book_spine := book_spine b |}.

Definition set_language (b : EpubBook) (lang : str) : EpubBook :=
  {| book_identifier := book_identifier b; book_title := book_title b;
     book_language := lang; book_authors := book_authors b;
     book_metadata := book_metadata b; book_items := book_items b;
     book_toc := book_toc b; book_cover := book_cover b;
     book_spine := book_spine b |}.

Definition add_author (b : EpubBook) (author : str) : EpubBook :=
  {| book_identifier := book_identifier b; book_title := book_title b;
     book_language := book_language b;
     book_authors := book_authors b ++ [author];
     book_metadata := book_metadata b; book_items := book_items b;
     book_toc := book_toc b; book_cover := book_cover b;
     book_spine := book_spine b |}.

Definition add_metadata (b : EpubBook) (namespace name value : str) : EpubBook :=
  {| book_identifier := book_identifier b; book_title := book_title b;
     book_language := book_language b; book_authors := book_authors b;
     book_metadata := book_metadata b ++ [(namespace, name, value)];
     book_items := book_items b;
     book_toc := book_toc b; book_cover := book_cover b;
     book_spine := book_spine b |}.

Definition add_item (b : EpubBook) (item : Item) : EpubBook :=
  {| book_identifier := book_identifier b; book_title := book_title b;
     book_language := book_language b; book_authors := book_authors b;
     book_metadata := book_metadata b;
     book_items := book_items b ++ [item];
     book_toc := book_toc b; book_cover := book_cover b;
     book_spine := book_spine b |}.

Definition set_toc (b : EpubBook) (toc : list Link) : EpubBook :=
  {| book_identifier := book_identifier b; book_title := book_title b;
     book_language := book_language b; book_authors := book_authors b;
     book_metadata := book_metadata b; book_items := book_items b;
     book_toc := toc; book_cover := book_cover b;
     book_spine := book_spine b |}.

Definition set_cover (b : EpubBook) (file_name : str) (content : bytes) : EpubBook :=
  {| book_identifier := book_identifier b; book_title := book_title b;
     book_language := book_language b; book_authors := book_authors b;
     book_metadata := book_metadata b; book_items := book_items b;
     book_toc := book_toc b; book_cover := Some (file_name, content);
     book_spine := book_spine b |}.

Definition set_spine (b : EpubBook) (spine : list SpineEntry) : EpubBook :=
  {| book_identifier := book_identifier b; book_title := book_title b;
     book_language := book_language b; book_authors := book_authors b;
     book_metadata := book_metadata b; book_items := book_items b;
     book_toc := book_toc b; book_cover := book_cover b;
     book_spine := spine |}.

(** [item.is_chapter()]: the content documents of the book. *)
Definition is_chapter (item : Item) : bool :=
  match item with
  | EpubHtml _ _ _ _ => true
  | _ => false
  end.

(** What [page.get_pixmap] returns (PyMuPDF). *)
Record Pixmap := {
  pix_alpha : bool;
  pix_width : Z;
  pix_height : Z;
  pix_samples : bytes
}.

(** The library calls of [main.py].  Each may return or raise; those that
    touch the disk see the file system.  [Image_save] and [write_epub]
    return the bytes that end up in the file they write.  [lower] is
    [str.lower], the case mapping of the Python runtime. *)
Record Env := {
  Document : Type;
  Page : Type;
  Image : Type;
  Reader : Type;
  PageObject : Type;
  fitz_open : gmap str Entry -> str -> result Document;
  load_page : Document -> Z -> result Page;
  get_pixmap : Page -> Z -> result Pixmap;
  Image_frombytes : str -> Z * Z -> bytes -> result Image;
  Image_save : Image -> str -> str -> gmap str Entry -> result bytes;
  PdfReader : gmap str Entry -> str -> result Reader;
  is_encrypted : Reader -> bool;
  decrypt : Reader -> str -> result Reader;
  pages : Reader -> result (list PageObject);
  extract_text : PageObject -> result (option str);
  write_epub : str -> EpubBook -> gmap str Entry -> result bytes;
  lower : str -> str
}.

(** ** src/main.py *)

Section Program.

Variable E : Env.

(** Default arguments of [generate_cover_image]. *)
Definition default_cover_path : str := lit "./data/cover.jpg".
Definition default_dpi : Z := 150.

Definition generate_cover_image (pdf_path output_path : str) (dpi : Z)
  : M (option str) :=
  try_except
    (doc ← call (fun files => fitz_open E files pdf_path);
     page ← lift (load_page E doc 0);
     pix ← lift (get_pixmap E page dpi);
     let mode := if pix_alpha pix then lit "RGBA" else lit "RGB" in
     img ← lift (Image_frombytes E mode (pix_width pix, pix_height pix)
                   (pix_samples pix));
     write_file (Image_save E img output_path (lit "JPEG")) output_path;;
     logger_info (lit "Cover image generated at: " ++ output_path);;
     mret (Some output_path))
    (fun e =>
       logger_error (lit "Failed to generate cover image for '" ++ pdf_path
                     ++ lit "': " ++ exc_str e);;
       logger_exception e;;
       mret None).

(** The body of the page loop of [extract_pdf_text]. *)
Definition extract_page (extracted_text : list str) (page : PageObject E)
  : M (list str) :=
  text ← lift (extract_text E page);
  mret (if truthy text then extracted_text ++ [default [] text]
        else extracted_text).

Definition extract_pdf_text (pdf_path : str) (password : option str) : M str :=
  try_except
    (reader ← call (fun files => PdfReader E files pdf_path);
     reader ← (if is_encrypted E reader && truthy password
               then lift (decrypt E reader (default [] password))
               else mret reader);
     reader_pages ← lift (pages E reader);
     extracted_text ← foldM extract_page [] reader_pages;
     let combined_text := join newline extracted_text in
     logger_info (lit "Extracted text from '" ++ pdf_path ++ lit "' (length: "
                  ++ str_of_nat (length combined_text) ++ lit " chars).");;
     mret combined_text)
    (fun e =>
       logger_error (lit "Failed to extract text from '" ++ pdf_path
                     ++ lit "': " ++ exc_str e);;
       logger_exception e;;
       mret []).

Definition placeholder : str :=
  lit "No textual content could be extracted from this PDF.".

Definition style : str := lit "
    body {
        font-family: Arial, sans-serif;
        margin: 10px;
    }
    p {
        text-align: justify;
        margin-bottom: 1em;
    }
    ".

Definition create_epub_from_text (text_content : str) (cover_image : option str)
    (title author : str) (metadata : option dict) : M EpubBook :=
  let book := EpubBook_new in
  let book := set_identifier book (lit "id_123456") in
  let book := set_title book title in
  let book := set_language book (lit "en") in
  let book := add_author book author in
  let book :=
    if truthy metadata
    then foldl (fun book '(key, value) => add_metadata book (lit "DC") key value)
           book (dict_items metadata)
    else book in
  text_content ←
    (if negb (truthy (Some (strip text_content)))
     then logger_warning
            (lit "No text content extracted. Adding placeholder paragraph.");;
          mret placeholder
     else mret text_content);
  let soup :=
    foldl (fun soup line => soup ++ [set_string (new_tag (lit "p")) line])
      [] (splitlines text_content) in
  let c1 := EpubHtml (lit "Content") (lit "content.xhtml") (lit "en")
              (soup_str soup) in
  let book := add_item book c1 in
  let book :=
    set_toc book [{| link_href := lit "content.xhtml";
                     link_title := lit "Content";
                     link_uid := lit "content" |}] in
  let book := add_item book EpubNcx in
  let book := add_item book EpubNav in
  book ←
    (files ← call (fun files => Ok files);
     if truthy cover_image && os_path_exists files (default [] cover_image)
     then content ← lift (open_rb files (default [] cover_image));
          mret (set_cover book (basename (default [] cover_image)) content)
     else mret book);
  let nav_css := EpubItem (lit "style_nav") (lit "style/nav.css")
                   (lit "text/css") style in
  let book := add_item book nav_css in
  let book := set_spine book [SpineId (lit "nav"); SpineItem c1] in
  mret book.

Definition save_epub (book : EpubBook) (output_path : str) : M unit :=
  logger_debug (lit "Attempting to write EPUB file to: " ++ output_path);;
  write_file (write_epub E output_path book) output_path;;
  logger_info (lit "EPUB successfully saved: " ++ output_path).

(** The [try] block of [convert_pdf_to_epub].  It yields its local [book],
    the document it has just saved, so that statements can name it; the
    function itself returns [None]. *)
Definition convert_body (pdf_path : str) (output_path password custom_cover : option str)
    (metadata : option dict) : M EpubBook :=
  let output_path :=
    if negb (truthy output_path)
    then let base := (splitext pdf_path).1 in base ++ lit ".epub"
    else default [] output_path in
  cover_image ←
    (files ← call (fun files => Ok files);
     if truthy custom_cover && os_path_exists files (default [] custom_cover)
     then let cover_image := custom_cover in
          logger_info (lit "Using custom cover image: " ++ default [] cover_image);;
          mret cover_image
     else generate_cover_image pdf_path default_cover_path default_dpi);
  text_content ← extract_pdf_text pdf_path password;
  let title :=
    if truthy metadata
    then dict_get (dict_items metadata) (lit "title") (basename pdf_path)
    else basename pdf_path in
  let author :=
    if truthy metadata
    then dict_get (dict_items metadata) (lit "author") (lit "Unknown")
    else lit "Unknown" in
  book ← create_epub_from_text text_content cover_image title author metadata;
  save_epub book output_path;;
  mret book.

Definition convert_pdf_to_epub (pdf_path : str)
    (output_path password custom_cover : option str) (metadata : option dict)
  : M unit :=
  try_except
    (convert_body pdf_path output_path password custom_cover metadata;;
     mret tt)
    (fun e =>
       logger_error (lit "Failed to convert '" ++ pdf_path ++ lit "' to EPUB: "
                     ++ exc_str e);;
       logger_exception e).

(** The namespace [parser.parse_args()] returns; [nargs="+"] makes
    [input_files] non-empty, and [metadata] is [None] without [-m]. *)
Record Args := {
  input_files : list str;
  output : option str;
  batch : bool;
  password : option str;
  thumbnail : option str;
  metadata : option (list str)
}.

Definition equals_sign : N := 61.

(** [main] after [args = parser.parse_args()]. *)
Definition main (args : Args) : M unit :=
  let meta_dict : dict := [] in
  let meta_dict :=
    if truthy (metadata args)
    then foldl (fun meta_dict kv =>
                  if contains equals_sign kv
                  then let '(k, v) := split_first equals_sign kv in
                       dict_set meta_dict (lower E k) v
                  else meta_dict)
           meta_dict (default [] (metadata args))
    else meta_dict in
  if batch args && (1 <? length (input_files args))%nat
  then for_each (input_files args) (fun pdf_file =>
         convert_pdf_to_epub pdf_file None (password args) (thumbnail args)
           (Some meta_dict))
  else
    if (length (input_files args) =? 1)%nat && truthy (output args)
    then match input_files args with
         | pdf_file :: _ =>
             convert_pdf_to_epub pdf_file (output args) (password args)
               (thumbnail args) (Some meta_dict)
         | [] => lift (Raise (Exc (lit "list index out of range")))
         end
    else for_each (input_files args) (fun pdf_file =>
           convert_pdf_to_epub pdf_file None (password args) (thumbnail args)
             (Some meta_dict)).

End Program.

(** ** What the library calls yield

    The outcome of a run of library calls without the program around them:
    the value of the last call, or the first exception. *)

#[export] Instance result_ret : MRet result := fun A a => Ok a.

#[export] Instance result_bind : MBind result := fun A B f r =>
  match r with
  | Ok a => f a
  | Raise e => Raise e
  end.

Section Outcomes.

Variable E : Env.

(** Opening the PDF, rendering its first page and encoding the image. *)
Definition cover_jpeg (files : gmap str Entry) (pdf_path output_path : str)
    (dpi : Z) : result bytes :=
  doc ← fitz_open E files pdf_path;
  page ← load_page E doc 0;
  pix ← get_pixmap E page dpi;
  img ← Image_frombytes E (if pix_alpha pix then lit "RGBA" else lit "RGB")
          (pix_width pix, pix_height pix) (pix_samples pix);
  Image_save E img output_path (lit "JPEG") files.

(** The per-page extraction results, in page order. *)
Fixpoint extract_all (reader_pages : list (PageObject E))
  : result (list (option str)) :=
  match reader_pages with
  | [] => Ok []
  | page :: rest =>
      text ← extract_text E page;
      texts ← extract_all rest;
      mret (text :: texts)
  end.

(** Opening the PDF, decrypting it when it is encrypted and a password is
    at hand, and extracting every page. *)
Definition page_texts (files : gmap str Entry) (pdf_path : str)
    (password : option str) : result (list (option str)) :=
  reader ← PdfReader E files pdf_path;
  reader ← (if is_encrypted E reader && truthy password
            then decrypt E reader (default [] password)
            else Ok reader);
  reader_pages ← pages E reader;
  extract_all reader_pages.

End Outcomes.

(** The extraction results that are neither [None] nor empty. *)
Definition nonempty (texts : list (option str)) : list str :=
  omap (fun text => if truthy text then text else None) texts.

(** A log record without and with an attached exception. *)
Definition record (l : Level) (msg : str) : LogRecord :=
  {| levelname := l; message := msg; exc_info := None |}.

(** What [logger.error(msg)] followed by [logger.exception(e)] emits. *)
Definition error_records (msg : str) (e : Exception) : list LogRecord :=
  [record ERROR msg;
   {| levelname := ERROR; message := exc_str e; exc_info := Some e |}].

(** The world with more records in its log. *)
Definition logged (w : World) (records : list LogRecord) : World :=
  {| fs := fs w; log := log w ++ records |}.

(** The world with a file written. *)
Definition written (w : World) (path : str) (data : bytes) : World :=
  {| fs := <[path := File data]> (fs w); log := log w |}.

Definition is_raise {A} (r : result A) : bool :=
  match r with
  | Ok _ => false
  | Raise _ => true
  end.

(** ** The assembled book in closed form *)

Definition blank (text : str) : bool := forallb isspace text.

(** A line in the sense of the splitter: no line boundary inside. *)
Definition one_line (line : str) : bool :=
  forallb (fun c => negb (islinebreak c)) line.

(** The text the chapter is made from. *)
Definition chapter_text (text_content : str) : str :=
  if blank text_content then placeholder else text_content.

(** A [<p>] element holding one line. *)
Definition paragraph (line : str) : Tag :=
  {| tag_name := lit "p"; tag_string := Some line |}.

(** The chapter item whose body is the given paragraphs. *)
Definition chapter (paragraphs : list Tag) : Item :=
  EpubHtml (lit "Content") (lit "content.xhtml") (lit "en") (soup_str paragraphs).

Definition stylesheet : Item :=
  EpubItem (lit "style_nav") (lit "style/nav.css") (lit "text/css") style.

Definition assembled (paragraphs : list Tag) (cover : option (str * bytes))
    (title author : str) (fields : dict) : EpubBook :=
  {| book_identifier := lit "id_123456";
     book_title := title;
     book_language := lit "en";
     book_authors := [author];
     book_metadata := (fun '(key, value) => (lit "DC", key, value)) <$> fields;
     book_items := [chapter paragraphs; EpubNcx; EpubNav; stylesheet];
     book_toc := [{| link_href := lit "content.xhtml";
                     link_title := lit "Content";
                     link_uid := lit "content" |}];
     book_cover := cover;
     book_spine := [SpineId (lit "nav"); SpineItem (chapter paragraphs)] |}.

(** The fields attached by the metadata step: those of a truthy mapping. *)
Definition attached (metadata : option dict) : dict := default [] metadata.

(** [d[k]] when the key is present. *)
Fixpoint dict_lookup (d : dict) (k : str) : option str :=
  match d with
  | [] => None
  | (k', v') :: rest => if decide (k' = k) then Some v' else dict_lookup rest k
  end.

(** ** The conversion in closed form *)

Section Conversion.

Variable E : Env.

(** The cover the orchestrator settles on, and the world after that. *)
Definition cover_choice (pdf_path : str) (custom_cover : option str) (w : World)
  : option str * World :=
  if truthy custom_cover && os_path_exists (fs w) (default [] custom_cover)
  then (custom_cover,
        logged w [record INFO (lit "Using custom cover image: "
                               ++ default [] custom_cover)])
  else match cover_jpeg E (fs w) pdf_path default_cover_path default_dpi with
       | Ok data =>
           (Some default_cover_path,
            logged (written w default_cover_path data)
              [record INFO (lit "Cover image generated at: " ++ default_cover_path)])
       | Raise e =>
           (None,
            logged w (error_records
                        (lit "Failed to generate cover image for '" ++ pdf_path
                         ++ lit "': " ++ exc_str e) e))
       end.

(** The text the extractor hands back, and the world after that. *)
Definition text_extraction (pdf_path : str) (password : option str) (w : World)
  : str * World :=
  match page_texts E (fs w) pdf_path password with
  | Ok texts =>
      (join newline (nonempty texts),
       logged w [record INFO
                   (lit "Extracted text from '" ++ pdf_path ++ lit "' (length: "
                    ++ str_of_nat (length (join newline (nonempty texts)))
                    ++ lit " chars).")])
  | Raise e =>
      ([],
       logged w (error_records
                   (lit "Failed to extract text from '" ++ pdf_path
                    ++ lit "': " ++ exc_str e) e))
  end.

(** The path the EPUB goes to. *)
Definition target (pdf_path : str) (output_path : option str) : str :=
  if truthy output_path then default [] output_path
  else (splitext pdf_path).1 ++ lit ".epub".

(** The title and author the orchestrator derives. *)
Definition derived_title (pdf_path : str) (metadata : option dict) : str :=
  if truthy metadata
  then dict_get (dict_items metadata) (lit "title") (basename pdf_path)
  else basename pdf_path.

Definition derived_author (metadata : option dict) : str :=
  if truthy metadata
  then dict_get (dict_items metadata) (lit "author") (lit "Unknown")
  else lit "Unknown".

(** The two records the top-level handler emits. *)
Definition conversion_failure (pdf_path : str) (e : Exception) : list LogRecord :=
  error_records (lit "Failed to convert '" ++ pdf_path ++ lit "' to EPUB: "
                 ++ exc_str e) e.

(** The mapping [main] builds from the [-m] pairs. *)
Definition parsed_metadata (pairs : option (list str)) : dict :=
  foldl (fun meta_dict kv =>
           if contains equals_sign kv
           then let '(k, v) := split_first equals_sign kv in
                dict_set meta_dict (lower E k) v
           else meta_dict)
    [] (default [] pairs).

(** The conversions [main] asks for: each input file with the output path
    it passes along. *)
Definition conversions (args : Args) : list (str * option str) :=
  if (length (input_files args) =? 1)%nat && truthy (output args)
  then (fun pdf_file => (pdf_file, output args)) <$> input_files args
  else (fun pdf_file => (pdf_file, None)) <$> input_files args.

(** One conversion of a run of [main], as a step from world to world. *)
Definition convert_step (args : Args) (w : World) (c : str * option str) : World :=
  (convert_pdf_to_epub E c.1 c.2 (password args) (thumbnail args)
     (Some (parsed_metadata (metadata args))) w).2.

End Conversion.

(** A PDF that neither the cover renderer nor the text extractor can read. *)
Definition corrupted (E : Env) (files : gmap str Entry) (pdf_path : str)
    (password : option str) : bool :=
  is_raise (cover_jpeg E files pdf_path default_cover_path default_dpi)
  && is_raise (page_texts E files pdf_path password).

(** ** A test environment

    A small world to run the program in: a file is a readable PDF when it
    starts with [%PDF]; such a file has one page, whose text is the rest of
    the file.  Rendering gives a one-pixel image, and the EPUB writer
    stores the title and the chapter of the book. *)

Module Demo.

Definition pdf_magic : bytes := lit "%PDF".

Definition parse_pdf (files : gmap str Entry) (path : str) : result bytes :=
  match files !! path with
  | Some (File data) =>
      if decide (take 4 data = pdf_magic) then Ok (drop 4 data)
      else Raise (Exc (lit "Failed to open file '" ++ path ++ lit "'."))
  | _ => Raise (Exc (lit "no such file: '" ++ path ++ lit "'"))
  end.

Definition chapter_of (b : EpubBook) : str :=
  concat ((fun item => match item with
                       | EpubHtml _ _ _ content => content
                       | _ => []
                       end) <$> book_items b).

Definition env : Env :=
  {| Document := bytes; Page := bytes; Image := bytes;
     Reader := bytes; PageObject := bytes;
     fitz_open := parse_pdf;
     load_page := fun doc _ => Ok doc;
     get_pixmap := fun _ _ =>
       Ok {| pix_alpha := false; pix_width := 1; pix_height := 1;
             pix_samples := [255; 255; 255]%N |};
     Image_frombytes := fun _ _ samples => Ok samples;
     Image_save := fun img _ _ _ => Ok (lit "JFIF" ++ img);
     PdfReader := parse_pdf;
     is_encrypted := fun _ => false;
     decrypt := fun reader _ => Ok reader;
     pages := fun reader => Ok [reader];
     extract_text := fun page => Ok (Some page);
     write_epub := fun _ book _ =>
       Ok (lit "EPUB " ++ book_title book ++ lit ": " ++ chapter_of book);
     lower := fun s => s |}.

(** Three inputs on disk; [bad.pdf] is not a PDF. *)
Definition disk : gmap str Entry :=
  <[lit "a.pdf" := File (lit "%PDFline1" ++ newline ++ lit "line2")]>
  (<[lit "bad.pdf" := File (lit "garbage")]>
  (<[lit "c.pdf" := File (lit "%PDFthird")]> ∅)).

Definition world : World := {| fs := disk; log := [] |}.

Definition batch_args : Args :=
  {| input_files := [lit "a.pdf"; lit "bad.pdf"; lit "c.pdf"];
     output := None; batch := true; password := None;
     thumbnail := None; metadata := None |}.

(** One input with an explicit output path and the batch flag set. *)
Definition single_batch_args : Args :=
  {| input_files := [lit "a.pdf"];
     output := Some (lit "custom.epub"); batch := true; password := None;
     thumbnail := None; metadata := None |}.

Definition moby : dict :=
  [(lit "title", lit "Moby Dick"); (lit "author", lit "Melville")].

(** The book of a result, for a conversion that returned one. *)
Definition book_of (r : result EpubBook * World) : EpubBook :=
  match r.1 with
  | Ok book => book
  | Raise _ => EpubBook_new
  end.

End Demo.

(** ** The handlers of [src/logging/Logging.py]

    [stream.setLevel(INFO)] and [file.setLevel(DEBUG)]: a handler emits a
    record the logger hands over when the level of the record reaches its
    own. *)

Definition stream_level : Level := INFO.
Definition file_level : Level := DEBUG.

Definition emits (handler_level : Level) (r : LogRecord) : bool :=
  levelno handler_level <=? levelno (levelname r).

(** The later world has the log of the earlier one followed by records
    that pass the test. *)
Definition appends (ok : LogRecord -> bool) (w w' : World) : Prop :=
  exists records,
    log w' = log w ++ records /\ Forall (fun r => ok r = true) records.

(** A record of level INFO, WARNING or ERROR. *)
Definition reported (r : LogRecord) : bool :=
  match levelname r with
  | INFO | WARNING | ERROR => true
  | _ => false
  end.

(** The test environment with an ASCII [str.lower]. *)
Module DemoCli.

Definition ascii_lower (s : str) : str :=
  (fun c => if (65 <=? c)%N && (c <=? 90)%N then (c + 32)%N else c) <$> s.

Definition env : Env :=
  {| Document := bytes; Page := bytes; Image := bytes;
     Reader := bytes; PageObject := bytes;
     fitz_open := fitz_open Demo.env;
     load_page := load_page Demo.env;
     get_pixmap := get_pixmap Demo.env;
     Image_frombytes := Image_frombytes Demo.env;
     Image_save := Image_save Demo.env;
     PdfReader := PdfReader Demo.env;
     is_encrypted := is_encrypted Demo.env;
     decrypt := decrypt Demo.env;
     pages := pages Demo.env;
     extract_text := extract_text Demo.env;
     write_epub := write_epub Demo.env;
     lower := ascii_lower |}.

(** [-m title=Old noequals TITLE=Moby=Dick] *)
Definition pairs : list str :=
  [lit "title=Old"; lit "noequals"; lit "TITLE=Moby=Dick"].

End DemoCli.

(** The environment with other behaviour of the two writing calls,
    [Image.save] and [epub.write_epub]. *)
Definition with_writers (E : Env)
    (save : Image E -> str -> str -> gmap str Entry -> result bytes)
    (write : str -> EpubBook -> gmap str Entry -> result bytes) : Env :=
  {| Document := Document E; Page := Page E; Image := Image E;
     Reader := Reader E; PageObject := PageObject E;
     fitz_open := fitz_open E;
     load_page := load_page E;
     get_pixmap := get_pixmap E;
     Image_frombytes := Image_frombytes E;
     Image_save := save;
     PdfReader := PdfReader E;
     is_encrypted := is_encrypted E;
     decrypt := decrypt E;
     pages := pages E;
     extract_text := extract_text E;
     write_epub := write;
     lower := lower E |}.

(** Writers for the test environment that fail on every path but the
    ones listed, and a run whose two inputs have the same output path. *)
Module DemoWriters.

Definition save_at (allowed : list str) (img : bytes) (path format : str)
    (files : gmap str Entry) : result bytes :=
  if decide (path ∈ allowed) then Image_save Demo.env img path format files
  else Raise (Exc (lit "[Errno 30] Read-only file system: '" ++ path ++ lit "'")).

Definition write_at (allowed : list str) (path : str) (book : EpubBook)
    (files : gmap str Entry) : result bytes :=
  if decide (path ∈ allowed) then write_epub Demo.env path book files
  else Raise (Exc (lit "[Errno 30] Read-only file system: '" ++ path ++ lit "'")).

Definition env : Env :=
  with_writers Demo.env (save_at [default_cover_path])
    (write_at [lit "a.epub"; lit "bad.epub"; lit "c.epub"]).

(** One input with an explicit output path, without the batch flag. *)
Definition single_args : Args :=
  {| input_files := [lit "a.pdf"];
     output := Some (lit "custom.epub"); batch := false; password := None;
     thumbnail := None; metadata := None |}.


End DemoWriters.

(** ** Reasoning about computations *)

Ltac unfold_M :=
  unfold mbind, M_bind, mret, M_ret, result_bind, result_ret, try_except,
    lift, call, write_file, logger_info, logger_error, logger_warning,
    logger_debug, logger_exception, logger_log, logged, written, record,
    error_records in *.

Lemma logged_logged w l1 l2 : logged (logged w l1) l2 = logged w (l1 ++ l2).
Proof. unfold logged. simpl. by rewrite app_assoc. Qed.

Lemma extract_page_eq E acc page w :
  extract_page E acc page w =
  match extract_text E page with
  | Ok text => (Ok (acc ++ nonempty [text]), w)
  | Raise e => (Raise e, w)
  end.
Proof.
  unfold extract_page. unfold_M.
  destruct (extract_text E page) as [[[|c t]|]|e]; simpl; try done.
  by rewrite app_nil_r. by rewrite app_nil_r.
Qed.

Lemma foldM_extract_page E reader_pages extracted_text w :
  foldM (extract_page E) extracted_text reader_pages w =
  match extract_all E reader_pages with
  | Ok texts => (Ok (extracted_text ++ nonempty texts), w)
  | Raise e => (Raise e, w)
  end.
Proof.
  revert extracted_text.
  induction reader_pages as [|page rest IH]; intros acc; simpl.
  - unfold_M. by rewrite app_nil_r.
  - unfold mbind, M_bind. rewrite extract_page_eq.
    unfold result_bind.
    destruct (extract_text E page) as [text|e]; [|done].
    rewrite IH. destruct (extract_all E rest) as [texts|e]; [|done].
    simpl. rewrite <- app_assoc. do 3 f_equal.
    unfold nonempty. simpl. by destruct text as [[|c t]|].
Qed.

Lemma nonempty_Forall texts : Forall (fun t => t <> []) (nonempty texts).
Proof.
  induction texts as [|[[|c t]|] texts IH]; simpl; auto.
Qed.

Lemma bind_call {A B : Type} (f : gmap str Entry -> result A) (k : A -> M B) w :
  (x ← call f; k x) w =
  match f (fs w) with
  | Ok a => k a w
  | Raise e => (Raise e, w)
  end.
Proof. reflexivity. Qed.

Lemma bind_lift {A B : Type} (r : result A) (k : A -> M B) w :
  (x ← lift r; k x) w =
  match r with
  | Ok a => k a w
  | Raise e => (Raise e, w)
  end.
Proof. reflexivity. Qed.

Lemma bind_mret {A B : Type} (a : A) (k : A -> M B) w :
  (x ← mret a; k x) w = k a w.
Proof. reflexivity. Qed.

Lemma generate_cover_image_eq E pdf_path output_path dpi w :
  generate_cover_image E pdf_path output_path dpi w =
  match cover_jpeg E (fs w) pdf_path output_path dpi with
  | Ok data =>
      (Ok (Some output_path),
       logged (written w output_path data)
         [record INFO (lit "Cover image generated at: " ++ output_path)])
  | Raise e =>
      (Ok None,
       logged w (error_records
                   (lit "Failed to generate cover image for '" ++ pdf_path
                    ++ lit "': " ++ exc_str e) e))
  end.
Proof.
  unfold generate_cover_image, cover_jpeg. unfold_M.
  destruct (fitz_open E (fs w) pdf_path) as [doc|e]; simpl;
    [|by rewrite <- app_assoc].
  destruct (load_page E doc 0) as [page|e]; simpl;
    [|by rewrite <- app_assoc].
  destruct (get_pixmap E page dpi) as [pix|e]; simpl;
    [|by rewrite <- app_assoc].
  destruct (Image_frombytes E _ _ _) as [img|e]; simpl;
    [|by rewrite <- app_assoc].
  destruct (Image_save E img output_path _ (fs w)) as [data|e]; simpl;
    [done|by rewrite <- app_assoc].
Qed.

Lemma extract_pdf_text_eq E pdf_path password w :
  extract_pdf_text E pdf_path password w =
  match page_texts E (fs w) pdf_path password with
  | Ok texts =>
      (Ok (join newline (nonempty texts)),
       logged w [record INFO
                   (lit "Extracted text from '" ++ pdf_path ++ lit "' (length: "
                    ++ str_of_nat (length (join newline (nonempty texts)))
                    ++ lit " chars).")])
  | Raise e =>
      (Ok [],
       logged w (error_records
                   (lit "Failed to extract text from '" ++ pdf_path
                    ++ lit "': " ++ exc_str e) e))
  end.
Proof.
  assert (Hfail : forall e,
    (logger_error (lit "Failed to extract text from '" ++ pdf_path
                   ++ lit "': " ++ exc_str e);;
     logger_exception e;; mret ([] : str)) w =
    (Ok [], logged w (error_records
                        (lit "Failed to extract text from '" ++ pdf_path
                         ++ lit "': " ++ exc_str e) e))).
  { intros e. unfold_M. simpl. by rewrite <- app_assoc. }
  assert (Hspec : page_texts E (fs w) pdf_path password =
    match PdfReader E (fs w) pdf_path with
    | Ok reader =>
        match (if is_encrypted E reader && truthy password
               then decrypt E reader (default [] password)
               else Ok reader) with
        | Ok reader' =>
            match pages E reader' with
            | Ok reader_pages => extract_all E reader_pages
            | Raise e => Raise e
            end
        | Raise e => Raise e
        end
    | Raise e => Raise e
    end) by reflexivity.
  rewrite Hspec. clear Hspec.
  unfold extract_pdf_text, try_except.
  rewrite bind_call.
  destruct (PdfReader E (fs w) pdf_path) as [reader|e]; [|apply Hfail].
  destruct (is_encrypted E reader && truthy password).
  - rewrite bind_lift.
    destruct (decrypt E reader (default [] password)) as [reader'|e];
      [|apply Hfail].
    rewrite bind_lift.
    destruct (pages E reader') as [reader_pages|e]; [|apply Hfail].
    unfold mbind at 1, M_bind. rewrite foldM_extract_page.
    destruct (extract_all E reader_pages) as [texts|e]; [done|apply Hfail].
  - rewrite bind_mret, bind_lift.
    destruct (pages E reader) as [reader_pages|e]; [|apply Hfail].
    unfold mbind at 1, M_bind. rewrite foldM_extract_page.
    destruct (extract_all E reader_pages) as [texts|e]; [done|apply Hfail].
Qed.

(** A text with no character other than white space. *)
Arguments lit : simpl never.

Lemma bind_assoc {A B C : Type} (m : M A) (f : A -> M B) (g : B -> M C) w :
  (y ← (x ← m; f x); g y) w = (x ← m; y ← f x; g y) w.
Proof. unfold mbind, M_bind. by destruct (m w) as [[a|e] w']. Qed.

Lemma lstrip_cases s :
  lstrip s = [] /\ blank s = true
  \/ exists c rest, lstrip s = c :: rest /\ isspace c = false /\ blank s = false.
Proof.
  induction s as [|c s IH]; simpl.
  - by left.
  - unfold blank. simpl. destruct (isspace c) eqn:Hc; simpl.
    + exact IH.
    + right. by exists c, s.
Qed.

Lemma blank_app s t : blank (s ++ t) = blank s && blank t.
Proof. unfold blank. induction s as [|c s IH]; simpl; [done|]. rewrite IH. by rewrite andb_assoc. Qed.

Lemma blank_reverse s : blank (reverse s) = blank s.
Proof.
  induction s as [|c s IH]; [done|].
  rewrite reverse_cons, blank_app, IH. unfold blank. simpl.
  rewrite andb_true_r. apply andb_comm.
Qed.

(** [not s.strip()] holds exactly for the blank texts. *)
Lemma strip_blank s : negb (truthy (Some (strip s))) = blank s.
Proof.
  unfold strip, rstrip.
  destruct (lstrip_cases s) as [[Hl Hb]|(c & rest & Hl & Hc & Hb)].
  - rewrite Hl, Hb. reflexivity.
  - rewrite Hb, Hl.
    destruct (lstrip_cases (reverse (c :: rest)))
      as [[Hl' Hb']|(c' & rest' & Hl' & Hc' & Hb')].
    + rewrite blank_reverse in Hb'. unfold blank in Hb'. simpl in Hb'.
      by rewrite Hc in Hb'.
    + rewrite Hl'. rewrite reverse_cons.
      by destruct (reverse rest').
Qed.

Lemma foldl_append {A B : Type} (f : B -> A) (l : list B) (acc : list A) :
  foldl (fun acc x => acc ++ [f x]) acc l = acc ++ (f <$> l).
Proof.
  revert acc. induction l as [|x l IH]; intros acc; simpl.
  - by rewrite app_nil_r.
  - rewrite IH. by rewrite <- app_assoc.
Qed.

Lemma foldl_add_metadata (fields : dict) (b : EpubBook) :
  foldl (fun book '(key, value) => add_metadata book (lit "DC") key value) b fields =
  {| book_identifier := book_identifier b; book_title := book_title b;
     book_language := book_language b; book_authors := book_authors b;
     book_metadata :=
       book_metadata b ++ ((fun '(key, value) => (lit "DC", key, value)) <$> fields);
     book_items := book_items b; book_toc := book_toc b;
     book_cover := book_cover b; book_spine := book_spine b |}.
Proof.
  revert b. induction fields as [|[k v] fields IH]; intros b; simpl.
  - rewrite app_nil_r. by destruct b.
  - rewrite IH. simpl. by rewrite <- app_assoc.
Qed.

Lemma create_epub_from_text_eq text_content cover_image title author metadata w :
  create_epub_from_text text_content cover_image title author metadata w =
  let w1 := if blank text_content
            then logged w [record WARNING
                   (lit "No text content extracted. Adding placeholder paragraph.")]
            else w in
  let paragraphs := paragraph <$> splitlines (chapter_text text_content) in
  if truthy cover_image && os_path_exists (fs w) (default [] cover_image)
  then match open_rb (fs w) (default [] cover_image) with
       | Ok content =>
           (Ok (assembled paragraphs
                  (Some (basename (default [] cover_image), content))
                  title author (attached metadata)), w1)
       | Raise e => (Raise e, w1)
       end
  else (Ok (assembled paragraphs None title author (attached metadata)), w1).
Proof.
  unfold create_epub_from_text.
  set (book0 := add_author _ author).
  assert (Hmeta :
    (if truthy metadata
     then foldl (fun book '(key, value) => add_metadata book (lit "DC") key value)
            book0 (dict_items metadata)
     else book0) =
    foldl (fun book '(key, value) => add_metadata book (lit "DC") key value)
      book0 (attached metadata)).
  { by destruct metadata as [[|kv d]|]. }
  rewrite Hmeta, foldl_add_metadata. clear Hmeta.
  rewrite strip_blank.
  unfold chapter_text.
  set (w1 := if blank text_content then _ else w).
  assert (Htext :
    forall (k : str -> M EpubBook),
      (text ← (if blank text_content
               then logger_warning
                      (lit "No text content extracted. Adding placeholder paragraph.");;
                    mret placeholder
               else mret text_content); k text) w =
      k (if blank text_content then placeholder else text_content) w1).
  { intros k. subst w1. by destruct (blank text_content). }
  rewrite Htext. clear Htext. cbv beta zeta.
  rewrite foldl_append, app_nil_l.
  rewrite bind_assoc, bind_call.
  assert (Hfs : fs w1 = fs w) by (subst w1; by destruct (blank text_content)).
  rewrite Hfs.
  destruct (truthy cover_image && os_path_exists (fs w) (default [] cover_image)).
  - rewrite bind_assoc, bind_lift.
    by destruct (open_rb (fs w) (default [] cover_image)).
  - by rewrite bind_mret.
Qed.

Lemma save_epub_eq E book output_path w :
  save_epub E book output_path w =
  match write_epub E output_path book (fs w) with
  | Ok data =>
      (Ok tt, logged (written w output_path data)
                [record INFO (lit "EPUB successfully saved: " ++ output_path)])
  | Raise e => (Raise e, w)
  end.
Proof.
  unfold save_epub. unfold_M. simpl.
  by destruct (write_epub E output_path book (fs w)).
Qed.

Lemma convert_body_eq E pdf_path output_path password custom_cover metadata w :
  convert_body E pdf_path output_path password custom_cover metadata w =
  let '(cover_image, w1) := cover_choice E pdf_path custom_cover w in
  let '(text_content, w2) := text_extraction E pdf_path password w1 in
  match create_epub_from_text text_content cover_image
          (derived_title pdf_path metadata) (derived_author metadata) metadata w2
  with
  | (Ok book, w3) =>
      match write_epub E (target pdf_path output_path) book (fs w3) with
      | Ok data =>
          (Ok book,
           logged (written w3 (target pdf_path output_path) data)
             [record INFO (lit "EPUB successfully saved: "
                           ++ target pdf_path output_path)])
      | Raise e => (Raise e, w3)
      end
  | (Raise e, w3) => (Raise e, w3)
  end.
Proof.
  unfold convert_body.
  change (if negb (truthy output_path)
          then let base := (splitext pdf_path).1 in base ++ lit ".epub"
          else default [] output_path)
    with (if negb (truthy output_path) then (splitext pdf_path).1 ++ lit ".epub"
          else default [] output_path).
  assert (Ht : (if negb (truthy output_path)
                then (splitext pdf_path).1 ++ lit ".epub"
                else default [] output_path) = target pdf_path output_path).
  { unfold target. by destruct (truthy output_path). }
  rewrite Ht. clear Ht.
  fold (derived_title pdf_path metadata). fold (derived_author metadata).
  cbv zeta.
  assert (Hc : forall (k : option str -> M EpubBook),
    (cover_image ←
       (files ← call (fun files => Ok files);
        if truthy custom_cover && os_path_exists files (default [] custom_cover)
        then let cover_image := custom_cover in
             logger_info (lit "Using custom cover image: " ++ default [] cover_image);;
             mret cover_image
        else generate_cover_image E pdf_path default_cover_path default_dpi);
     k cover_image) w =
    k (cover_choice E pdf_path custom_cover w).1 (cover_choice E pdf_path custom_cover w).2).
  { intros k. rewrite bind_assoc, bind_call. unfold cover_choice.
    destruct (truthy custom_cover && os_path_exists (fs w) (default [] custom_cover)).
    - reflexivity.
    - unfold mbind at 1, M_bind. rewrite generate_cover_image_eq.
      by destruct (cover_jpeg E (fs w) pdf_path default_cover_path default_dpi). }
  rewrite Hc. clear Hc.
  destruct (cover_choice E pdf_path custom_cover w) as [cover_image w1]. simpl fst. simpl snd.
  unfold mbind at 1, M_bind at 1. rewrite extract_pdf_text_eq.
  unfold text_extraction.
  destruct (page_texts E (fs w1) pdf_path password) as [texts|e].
  - unfold mbind at 1, M_bind at 1.
    destruct (create_epub_from_text _ _ _ _ _ _) as [[book|e] w3]; [|done].
    unfold mbind at 1, M_bind at 1. rewrite save_epub_eq.
    by destruct (write_epub E (target pdf_path output_path) book (fs w3)).
  - unfold mbind at 1, M_bind at 1.
    destruct (create_epub_from_text _ _ _ _ _ _) as [[book|e'] w3]; [|done].
    unfold mbind at 1, M_bind at 1. rewrite save_epub_eq.
    by destruct (write_epub E (target pdf_path output_path) book (fs w3)).
Qed.

Lemma convert_pdf_to_epub_eq E pdf_path output_path password custom_cover metadata w :
  convert_pdf_to_epub E pdf_path output_path password custom_cover metadata w =
  match convert_body E pdf_path output_path password custom_cover metadata w with
  | (Ok _, w') => (Ok tt, w')
  | (Raise e, w') => (Ok tt, logged w' (conversion_failure pdf_path e))
  end.
Proof.
  unfold convert_pdf_to_epub, try_except.
  unfold mbind at 1, M_bind at 1.
  destruct (convert_body E pdf_path output_path password custom_cover metadata w)
    as [[book|e] w']; [done|].
  unfold conversion_failure. unfold_M. simpl. by rewrite <- app_assoc.
Qed.

Lemma convert_pdf_to_epub_returns E pdf_path output_path password custom_cover metadata w :
  exists w',
    convert_pdf_to_epub E pdf_path output_path password custom_cover metadata w
    = (Ok tt, w').
Proof.
  rewrite convert_pdf_to_epub_eq.
  destruct (convert_body E pdf_path output_path password custom_cover metadata w)
    as [[book|e] w']; eauto.
Qed.

(** A loop whose body always returns runs the body on every element, each
    time from the world the previous round left. *)
Lemma for_each_returns {A : Type} (body : A -> M unit) (l : list A) w :
  (forall x w1, exists w2, body x w1 = (Ok tt, w2)) ->
  for_each l body w = (Ok tt, foldl (fun w1 x => (body x w1).2) w l).
Proof.
  intros Hbody. unfold for_each. revert w.
  induction l as [|x l IH]; intros w; simpl; [done|].
  unfold mbind, M_bind. destruct (Hbody x w) as [w2 Hw2].
  rewrite Hw2. simpl. apply IH.
Qed.

Lemma main_eq E args w :
  main E args w = (Ok tt, foldl (convert_step E args) w (conversions args)).
Proof.
  unfold main, conversions.
  assert (Hmeta :
    (if truthy (metadata args)
     then foldl (fun meta_dict kv =>
                   if contains equals_sign kv
                   then let '(k, v) := split_first equals_sign kv in
                        dict_set meta_dict (lower E k) v
                   else meta_dict)
            [] (default [] (metadata args))
     else []) = parsed_metadata E (metadata args)).
  { unfold parsed_metadata. by destruct (metadata args) as [[|kv l]|]. }
  cbv zeta. rewrite Hmeta. clear Hmeta.
  assert (Hloop : forall o,
    for_each (input_files args) (fun pdf_file =>
      convert_pdf_to_epub E pdf_file o (password args) (thumbnail args)
        (Some (parsed_metadata E (metadata args)))) w =
    (Ok tt, foldl (convert_step E args) w
              ((fun pdf_file => (pdf_file, o)) <$> input_files args))).
  { intros o. rewrite for_each_returns.
    - f_equal. generalize w. induction (input_files args) as [|x l IH]; intros w0; [done|].
      simpl. apply IH.
    - intros x w1. apply convert_pdf_to_epub_returns. }
  destruct (batch args && (1 <? length (input_files args))%nat) eqn:Hb.
  - apply andb_true_iff in Hb as [_ Hlen].
    apply Nat.ltb_lt in Hlen.
    replace ((length (input_files args) =? 1)%nat) with false
      by (symmetry; apply Nat.eqb_neq; lia).
    simpl. apply Hloop.
  - clear Hb.
    destruct ((length (input_files args) =? 1)%nat && truthy (output args)) eqn:Hs.
    + apply andb_true_iff in Hs as [Hlen _]. apply Nat.eqb_eq in Hlen.
      destruct (input_files args) as [|pdf_file [|x l]]; try discriminate.
      simpl. unfold convert_step. simpl.
      by destruct (convert_pdf_to_epub_returns E pdf_file (output args)
                     (password args) (thumbnail args)
                     (Some (parsed_metadata E (metadata args))) w)
        as [w' ->].
    + apply Hloop.
Qed.

Lemma dict_get_lookup d k dflt : dict_get d k dflt = default dflt (dict_lookup d k).
Proof.
  induction d as [|[k' v'] d IH]; simpl; [done|].
  by destruct (decide (k' = k)).
Qed.

Lemma derived_title_lookup pdf_path (metadata : option dict) :
  derived_title pdf_path metadata =
  default (basename pdf_path) (d ← metadata; dict_lookup d (lit "title")).
Proof.
  unfold derived_title. destruct metadata as [[|kv d]|]; simpl; try done.
  unfold dict_items. simpl. apply (dict_get_lookup (kv :: d)).
Qed.

Lemma derived_author_lookup (metadata : option dict) :
  derived_author metadata =
  default (lit "Unknown") (d ← metadata; dict_lookup d (lit "author")).
Proof.
  unfold derived_author. destruct metadata as [[|kv d]|]; simpl; try done.
  unfold dict_items. simpl. apply (dict_get_lookup (kv :: d)).
Qed.

(** What the assembler returns, whatever the cover. *)
Lemma create_epub_from_text_inv text_content cover_image title author metadata w :
  match create_epub_from_text text_content cover_image title author metadata w with
  | (Ok book, w') =>
      (exists cover,
         book = assembled (paragraph <$> splitlines (chapter_text text_content))
                  cover title author (attached metadata))
      /\ w' = (if blank text_content
               then logged w [record WARNING
                      (lit "No text content extracted. Adding placeholder paragraph.")]
               else w)
  | (Raise e, w') =>
      truthy cover_image = true
      /\ open_rb (fs w) (default [] cover_image) = Raise e
  end.
Proof.
  rewrite create_epub_from_text_eq. cbv zeta.
  destruct (truthy cover_image) eqn:Hc; simpl.
  - destruct (os_path_exists (fs w) (default [] cover_image)).
    + destruct (open_rb (fs w) (default [] cover_image)); eauto.
    + eauto.
  - eauto.
Qed.

(** The book a conversion has saved. *)
Lemma convert_body_book E pdf_path output_path password custom_cover metadata w book w' :
  convert_body E pdf_path output_path password custom_cover metadata w = (Ok book, w') ->
  exists paragraphs cover,
    book = assembled paragraphs cover (derived_title pdf_path metadata)
             (derived_author metadata) (attached metadata).
Proof.
  rewrite convert_body_eq.
  destruct (cover_choice E pdf_path custom_cover w) as [cover_image w1].
  destruct (text_extraction E pdf_path password w1) as [text_content w2].
  pose proof (create_epub_from_text_inv text_content cover_image
                (derived_title pdf_path metadata) (derived_author metadata)
                metadata w2) as Hinv.
  destruct (create_epub_from_text _ _ _ _ _ _) as [[book'|e] w3]; [|done].
  destruct Hinv as [[cover ->] _].
  destruct (write_epub E _ _ _); [|done].
  intros [= <- _]. eauto.
Qed.

Lemma text_extraction_fs E pdf_path password w :
  fs (text_extraction E pdf_path password w).2 = fs w.
Proof.
  unfold text_extraction.
  by destruct (page_texts E (fs w) pdf_path password).
Qed.

Lemma create_epub_from_text_fs text_content cover_image title author metadata w :
  fs (create_epub_from_text text_content cover_image title author metadata w).2 = fs w.
Proof.
  rewrite create_epub_from_text_eq. cbv zeta.
  destruct (truthy cover_image && os_path_exists (fs w) (default [] cover_image));
    [destruct (open_rb (fs w) (default [] cover_image))|];
    by destruct (blank text_content).
Qed.

(** The file a conversion that returned has written: the writer was called
    on the target path, and the file there holds the bytes it produced. *)
Lemma convert_body_written E pdf_path output_path password custom_cover metadata
    w book w' :
  convert_body E pdf_path output_path password custom_cover metadata w
  = (Ok book, w') ->
  exists data,
    write_epub E (target pdf_path output_path) book
      (fs (cover_choice E pdf_path custom_cover w).2) = Ok data
    /\ fs w' !! target pdf_path output_path = Some (File data).
Proof.
  rewrite convert_body_eq.
  destruct (cover_choice E pdf_path custom_cover w) as [cover_image w1].
  cbn [snd].
  pose proof (text_extraction_fs E pdf_path password w1) as Ht.
  destruct (text_extraction E pdf_path password w1) as [text_content w2].
  pose proof (create_epub_from_text_fs text_content cover_image
                (derived_title pdf_path metadata) (derived_author metadata)
                metadata w2) as Hb.
  destruct (create_epub_from_text _ _ _ _ _ _) as [[book'|e] w3]; [|done].
  simpl in Ht, Hb. rewrite Hb, Ht.
  destruct (write_epub E _ book' (fs w1)) as [data|e] eqn:Hwrite; [|done].
  intros [= <- <-]. exists data. split; [exact Hwrite|].
  simpl. apply lookup_insert_eq.
Qed.

Lemma splitlines_cons c rest :
  islinebreak c = false ->
  splitlines (c :: rest) =
  match splitlines rest with
  | [] => [[c]]
  | line :: lines => (c :: line) :: lines
  end.
Proof. intros Hc. simpl. by rewrite Hc. Qed.

Lemma splitlines_line line :
  one_line line = true -> line <> [] -> splitlines line = [line].
Proof.
  induction line as [|c line IH]; [done|]. intros Hline _.
  unfold one_line in Hline. simpl in Hline.
  apply andb_true_iff in Hline as [Hc Hline].
  apply negb_true_iff in Hc. simpl. rewrite Hc.
  destruct line as [|c' line]; [done|].
  rewrite IH; done.
Qed.

Lemma splitlines_line_newline line rest :
  one_line line = true ->
  splitlines (line ++ newline ++ rest) = line :: splitlines rest.
Proof.
  induction line as [|c line IH]; intros Hline.
  - reflexivity.
  - unfold one_line in Hline. simpl in Hline.
    apply andb_true_iff in Hline as [Hc Hline].
    apply negb_true_iff in Hc.
    change ((c :: line) ++ newline ++ rest) with (c :: (line ++ newline ++ rest)).
    rewrite splitlines_cons by done. by rewrite IH.
Qed.

(** Splitting undoes joining with newlines: the lines of a text written as
    lines joined by newlines are those lines, a final empty line apart. *)
Lemma splitlines_join lines :
  Forall (fun line => one_line line = true) lines ->
  last lines <> Some [] ->
  splitlines (join newline lines) = lines.
Proof.
  induction lines as [|line lines IH]; intros Hlines Hlast; [done|].
  inversion Hlines as [|? ? Hline Hrest]; subst.
  destruct lines as [|line' lines].
  - simpl. apply splitlines_line; [done|]. intros ->. by apply Hlast.
  - change (join newline (line :: line' :: lines))
      with (line ++ newline ++ join newline (line' :: lines)).
    rewrite splitlines_line_newline by done.
    f_equal. apply IH; [done|]. exact Hlast.
Qed.

(** ** The claims *)

(** C1.  Whatever the conversion pipeline raises (deriving the output
    path, choosing the cover, extracting text, assembling, writing) is
    caught by the one handler of [convert_pdf_to_epub]: it logs the error
    with the path of the file and does nothing more for that file.  The
    orchestrator never raises, and [main] runs the conversion of every input
    file, each from the world the previous one left. *)
Theorem convert_pdf_to_epub_never_raises E args pdf_path output_path password
    custom_cover metadata w :
  convert_pdf_to_epub E pdf_path output_path password custom_cover metadata w =
    match convert_body E pdf_path output_path password custom_cover metadata w with
    | (Ok _, w') => (Ok tt, w')
    | (Raise e, w') => (Ok tt, logged w' (conversion_failure pdf_path e))
    end
  /\ (exists w',
        convert_pdf_to_epub E pdf_path output_path password custom_cover metadata w
        = (Ok tt, w'))
  /\ main E args w = (Ok tt, foldl (convert_step E args) w (conversions args))
  /\ (conversions args).*1 = input_files args.
Proof.
  split; [apply convert_pdf_to_epub_eq|].
  split; [apply convert_pdf_to_epub_returns|].
  split; [apply main_eq|].
  unfold conversions.
  destruct ((length (input_files args) =? 1)%nat && truthy (output args));
    rewrite <- list_fmap_compose; apply list_fmap_id.
Qed.

(** C3, as amended.  The explicit output path is honored exactly when one
    input file is given together with a non-empty output path, with or
    without the batch flag: that conversion then writes to exactly that
    path (the writer is called on it, and the file there holds the bytes
    the writer produced).  With more than one input file the explicit
    output path is ignored and every file goes to its derived path, the
    input path with its extension replaced by [.epub]. *)
Theorem output_honored_for_single_input E args w :
  main E args w = (Ok tt, foldl (convert_step E args) w (conversions args))
  /\ conversions args =
       match input_files args, output args with
       | [pdf_file], Some (c :: path) => [(pdf_file, Some (c :: path))]
       | files, _ => (fun pdf_file => (pdf_file, None)) <$> files
       end
  /\ (forall pdf_file c path, target pdf_file (Some (c :: path)) = c :: path)
  /\ (forall pdf_file, target pdf_file None = (splitext pdf_file).1 ++ lit ".epub")
  /\ (forall pdf_file o password custom_cover metadata w1 book w2,
        convert_body E pdf_file o password custom_cover metadata w1
        = (Ok book, w2) ->
        exists data,
          write_epub E (target pdf_file o) book
            (fs (cover_choice E pdf_file custom_cover w1).2) = Ok data
          /\ fs w2 !! target pdf_file o = Some (File data)).
Proof.
  split; [apply main_eq|].
  split.
  { unfold conversions.
    destruct (input_files args) as [|pdf_file [|x l]]; simpl; [done| |done].
    by destruct (output args) as [[|c path]|]. }
  split; [done|]. split; [done|].
  intros pdf_file o password custom_cover metadata w1 book w2 Hbody.
  exact (convert_body_written _ _ _ _ _ _ _ _ _ Hbody).
Qed.

(** C4, as amended.  For every text content that is not blank, the
    assembler builds the single chapter by splitting the text into lines at
    its line boundaries and emitting exactly one paragraph per line, in line
    order, a blank line becoming an empty paragraph; lines joined by
    newlines split back into those lines, and the text ["line1\nline2"]
    yields exactly the two paragraphs [line1] and [line2]. *)
Theorem chapter_one_paragraph_per_line text_content cover_image title author
    metadata w :
  blank text_content = false ->
  match create_epub_from_text text_content cover_image title author metadata w with
  | (Ok book, w') =>
      filter is_chapter (book_items book)
      = [chapter (paragraph <$> splitlines text_content)]
  | (Raise e, w') =>
      truthy cover_image = true
      /\ open_rb (fs w) (default [] cover_image) = Raise e
  end
  /\ length (paragraph <$> splitlines text_content)
     = length (splitlines text_content)
  /\ (forall i line, splitlines text_content !! i = Some line ->
        (paragraph <$> splitlines text_content) !! i = Some (paragraph line))
  /\ tag_str (paragraph []) = lit "<p></p>"
  /\ (forall lines,
        Forall (fun line => one_line line = true) lines ->
        last lines <> Some [] ->
        text_content = join newline lines ->
        splitlines text_content = lines)
  /\ (text_content = lit "line1" ++ newline ++ lit "line2" ->
      splitlines text_content = [lit "line1"; lit "line2"]
      /\ soup_str (paragraph <$> splitlines text_content)
         = lit "<p>line1</p><p>line2</p>").
Proof.
  intros Hblank.
  split.
  { pose proof (create_epub_from_text_inv text_content cover_image title author
                  metadata w) as Hinv.
    destruct (create_epub_from_text _ _ _ _ _ _) as [[book|e] w']; [|done].
    destruct Hinv as [[cover ->] _].
    unfold chapter_text. by rewrite Hblank. }
  split; [apply length_fmap|].
  split; [intros i line Hi; by rewrite list_lookup_fmap, Hi|].
  split; [by vm_compute|].
  split; [intros lines Hlines Hlast ->; by apply splitlines_join|].
  intros ->. by vm_compute.
Qed.

(** C5.  For every text content that is empty or consists of white space
    only, the assembler logs a warning and makes the chapter from the
    placeholder sentence: the chapter holds exactly one paragraph, the
    placeholder, and never none. *)
Theorem blank_text_gives_placeholder_paragraph text_content cover_image title
    author metadata w :
  blank text_content = true ->
  match create_epub_from_text text_content cover_image title author metadata w with
  | (Ok book, w') =>
      filter is_chapter (book_items book) = [chapter [paragraph placeholder]]
      /\ w' = logged w [record WARNING
                 (lit "No text content extracted. Adding placeholder paragraph.")]
  | (Raise e, w') =>
      truthy cover_image = true
      /\ open_rb (fs w) (default [] cover_image) = Raise e
  end
  /\ soup_str [paragraph placeholder]
     = lit "<p>No textual content could be extracted from this PDF.</p>".
Proof.
  intros Hblank.
  split; [|by vm_compute].
  pose proof (create_epub_from_text_inv text_content cover_image title author
                metadata w) as Hinv.
  destruct (create_epub_from_text _ _ _ _ _ _) as [[book|e] w']; [|done].
  destruct Hinv as [[cover ->] ->].
  unfold chapter_text. rewrite Hblank. split; [|done].
  by vm_compute.
Qed.

(** C6.  For every PDF path and optional password, the text extractor
    returns the per-page extraction results that are non-empty, joined by
    a newline in page order, with nothing for a page that gave [None] or
    the empty string; when a library call raises it logs the error and
    returns the empty string.  It never raises. *)
Theorem extract_pdf_text_joins_nonempty_pages E pdf_path password w :
  extract_pdf_text E pdf_path password w =
    match page_texts E (fs w) pdf_path password with
    | Ok texts =>
        (Ok (join newline (nonempty texts)),
         logged w [record INFO
                     (lit "Extracted text from '" ++ pdf_path ++ lit "' (length: "
                      ++ str_of_nat (length (join newline (nonempty texts)))
                      ++ lit " chars).")])
    | Raise e =>
        (Ok [],
         logged w (error_records
                     (lit "Failed to extract text from '" ++ pdf_path
                      ++ lit "': " ++ exc_str e) e))
    end
  /\ (forall texts, Forall (fun text => text <> []) (nonempty texts))
  /\ (exists text w', extract_pdf_text E pdf_path password w = (Ok text, w')).
Proof.
  split; [apply extract_pdf_text_eq|].
  split; [apply nonempty_Forall|].
  rewrite extract_pdf_text_eq.
  destruct (page_texts E (fs w) pdf_path password); eauto.
Qed.

(** C7.  For every PDF path, output path and resolution, the cover
    extractor returns the output path once the JPEG is written there, or
    logs the error of the library call that raised and returns [None]; it
    never raises to its caller. *)
Theorem generate_cover_image_path_or_None E pdf_path output_path dpi w :
  generate_cover_image E pdf_path output_path dpi w =
    match cover_jpeg E (fs w) pdf_path output_path dpi with
    | Ok data =>
        (Ok (Some output_path),
         logged (written w output_path data)
           [record INFO (lit "Cover image generated at: " ++ output_path)])
    | Raise e =>
        (Ok None,
         logged w (error_records
                     (lit "Failed to generate cover image for '" ++ pdf_path
                      ++ lit "': " ++ exc_str e) e))
    end
  /\ (exists r w',
        generate_cover_image E pdf_path output_path dpi w = (Ok r, w')
        /\ (r = Some output_path \/ r = None)).
Proof.
  split; [apply generate_cover_image_eq|].
  rewrite generate_cover_image_eq.
  destruct (cover_jpeg E (fs w) pdf_path output_path dpi); eauto.
Qed.

(** C8.  For every conversion, the title of the book is the [title] entry
    of the metadata mapping when there is one and the base name of the
    input file otherwise, and its author is the [author] entry when there
    is one and [Unknown] otherwise; with the entries [Moby Dick] and
    [Melville] the book has that title and that author whatever the input
    file is called. *)
Theorem title_author_from_metadata_or_defaults E pdf_path output_path password
    custom_cover (metadata : option dict) w book w' :
  convert_body E pdf_path output_path password custom_cover metadata w
  = (Ok book, w') ->
  book_title book
  = default (basename pdf_path) (d ← metadata; dict_lookup d (lit "title"))
  /\ book_authors book
     = [default (lit "Unknown") (d ← metadata; dict_lookup d (lit "author"))]
  /\ (metadata = Some [(lit "title", lit "Moby Dick"); (lit "author", lit "Melville")] ->
      book_title book = lit "Moby Dick" /\ book_authors book = [lit "Melville"]).
Proof.
  intros Hbody.
  destruct (convert_body_book _ _ _ _ _ _ _ _ _ Hbody) as (paragraphs & cover & ->).
  simpl. rewrite derived_title_lookup, derived_author_lookup.
  split; [done|]. split; [done|].
  intros ->. by vm_compute.
Qed.

(** C9.  Every book the assembler returns, whatever the text, cover,
    title, author and metadata, contains exactly one chapter, and its
    spine is exactly the navigation document followed by that chapter. *)
Theorem assembled_book_one_chapter_spine text_content cover_image title author
    metadata w :
  match create_epub_from_text text_content cover_image title author metadata w with
  | (Ok book, w') =>
      exists c1,
        filter is_chapter (book_items book) = [c1]
        /\ book_spine book = [SpineId (lit "nav"); SpineItem c1]
        /\ EpubNav ∈ book_items book
  | (Raise e, w') =>
      truthy cover_image = true
      /\ open_rb (fs w) (default [] cover_image) = Raise e
  end.
Proof.
  pose proof (create_epub_from_text_inv text_content cover_image title author
                metadata w) as Hinv.
  destruct (create_epub_from_text _ _ _ _ _ _) as [[book|e] w']; [|done].
  destruct Hinv as [[cover ->] _].
  eexists. split; [reflexivity|]. split; [reflexivity|].
  simpl. set_solver.
Qed.

(** C10.  Assembling with an empty metadata mapping is assembling with no
    metadata: for every text, cover, title and author the two calls agree,
    no Dublin-Core field is attached, and a conversion with the empty
    mapping titles the book after the file name with author [Unknown];
    [main] without [-m] passes the empty mapping. *)
Theorem empty_metadata_is_absent E text_content cover_image title author
    pdf_path output_path password custom_cover w :
  create_epub_from_text text_content cover_image title author (Some []) w
  = create_epub_from_text text_content cover_image title author None w
  /\ convert_pdf_to_epub E pdf_path output_path password custom_cover (Some []) w
     = convert_pdf_to_epub E pdf_path output_path password custom_cover None w
  /\ convert_body E pdf_path output_path password custom_cover (Some []) w
     = convert_body E pdf_path output_path password custom_cover None w
  /\ match create_epub_from_text text_content cover_image title author (Some []) w with
     | (Ok book, _) =>
         book_metadata book = [] /\ book_title book = title
         /\ book_authors book = [author]
     | (Raise e, _) =>
         truthy cover_image = true
         /\ open_rb (fs w) (default [] cover_image) = Raise e
     end
  /\ match convert_body E pdf_path output_path password custom_cover (Some []) w with
     | (Ok book, _) =>
         book_metadata book = [] /\ book_title book = basename pdf_path
         /\ book_authors book = [lit "Unknown"]
     | (Raise e, _) => True
     end
  /\ parsed_metadata E None = [].
Proof.
  split; [reflexivity|]. split; [reflexivity|]. split; [reflexivity|].
  split.
  { pose proof (create_epub_from_text_inv text_content cover_image title author
                  (Some []) w) as Hinv.
    destruct (create_epub_from_text _ _ _ _ _ _) as [[book|e] w']; [|done].
    by destruct Hinv as [[cover ->] _]. }
  split; [|reflexivity].
  destruct (convert_body E pdf_path output_path password custom_cover (Some []) w)
    as [[book|e] w'] eqn:Hbody; [|done].
  by destruct (convert_body_book _ _ _ _ _ _ _ _ _ Hbody) as (paragraphs & cover & ->).
Qed.

Lemma splitlines_placeholder : splitlines placeholder = [placeholder].
Proof. by vm_compute. Qed.

(** The conversion of a corrupted input when no custom cover is given. *)
Lemma convert_corrupted E pdf_path password custom_cover metadata w e_cover e_text :
  truthy custom_cover = false ->
  cover_jpeg E (fs w) pdf_path default_cover_path default_dpi = Raise e_cover ->
  page_texts E (fs w) pdf_path password = Raise e_text ->
  let book := assembled [paragraph placeholder] None
                (derived_title pdf_path metadata) (derived_author metadata)
                (attached metadata) in
  let w2 := logged w
    (error_records (lit "Failed to generate cover image for '" ++ pdf_path
                    ++ lit "': " ++ exc_str e_cover) e_cover
     ++ error_records (lit "Failed to extract text from '" ++ pdf_path
                       ++ lit "': " ++ exc_str e_text) e_text
     ++ [record WARNING
           (lit "No text content extracted. Adding placeholder paragraph.")]) in
  convert_pdf_to_epub E pdf_path None password custom_cover metadata w =
  (Ok tt,
   match write_epub E (target pdf_path None) book (fs w) with
   | Ok data =>
       logged (written w2 (target pdf_path None) data)
         [record INFO (lit "EPUB successfully saved: " ++ target pdf_path None)]
   | Raise e => logged w2 (conversion_failure pdf_path e)
   end).
Proof.
  intros Hcover Hjpeg Htexts. cbv zeta.
  rewrite convert_pdf_to_epub_eq, convert_body_eq.
  unfold cover_choice. rewrite Hcover, Hjpeg. simpl andb. cbv iota.
  unfold text_extraction.
  change (fs (logged w _)) with (fs w). rewrite Htexts.
  rewrite create_epub_from_text_eq. cbv zeta.
  change (truthy None && _) with false. cbv iota.
  change (blank []) with true. cbv iota.
  change (chapter_text []) with placeholder.
  rewrite splitlines_placeholder.
  change (paragraph <$> [placeholder]) with [paragraph placeholder].
  rewrite !logged_logged.
  change (fs (logged w _)) with (fs w).
  by destruct (write_epub E _ _ (fs w)).
Qed.

(** C2, as amended.  In batch mode, an input file whose PDF is corrupted
    (the cover renderer and the text extractor both raise on it) has both
    errors logged, and its conversion goes on with no cover and the
    placeholder text: when no custom thumbnail is given, an EPUB whose
    chapter is the single placeholder paragraph is written at the derived
    path of that input unless the writer raises, in which case that error
    is logged too.  The inputs before and after it are converted as usual. *)
Theorem corrupted_input_converted_with_placeholder E args w before pdf_path after :
  batch args = true ->
  input_files args = before ++ pdf_path :: after ->
  (1 < length (input_files args))%nat ->
  truthy (thumbnail args) = false ->
  let metadata := Some (parsed_metadata E (metadata args)) in
  let w1 := foldl (convert_step E args) w
              ((fun pdf_file => (pdf_file, None)) <$> before) in
  corrupted E (fs w1) pdf_path (password args) = true ->
  exists e_cover e_text,
    cover_jpeg E (fs w1) pdf_path default_cover_path default_dpi = Raise e_cover
    /\ page_texts E (fs w1) pdf_path (password args) = Raise e_text
    /\ let book := assembled [paragraph placeholder] None
                     (derived_title pdf_path metadata) (derived_author metadata)
                     (attached metadata) in
       let w2 := logged w1
         (error_records (lit "Failed to generate cover image for '" ++ pdf_path
                         ++ lit "': " ++ exc_str e_cover) e_cover
          ++ error_records (lit "Failed to extract text from '" ++ pdf_path
                            ++ lit "': " ++ exc_str e_text) e_text
          ++ [record WARNING
                (lit "No text content extracted. Adding placeholder paragraph.")]) in
       let w3 :=
         match write_epub E (target pdf_path None) book (fs w1) with
         | Ok data =>
             logged (written w2 (target pdf_path None) data)
               [record INFO (lit "EPUB successfully saved: "
                             ++ target pdf_path None)]
         | Raise e => logged w2 (conversion_failure pdf_path e)
         end in
       main E args w =
       (Ok tt, foldl (convert_step E args) w3
                 ((fun pdf_file => (pdf_file, None)) <$> after)).
Proof.
  intros _ Hfiles Hlen Hthumb metadata0 w1 Hcorrupted. subst metadata0.
  unfold corrupted in Hcorrupted. apply andb_true_iff in Hcorrupted as [Hc Ht].
  destruct (cover_jpeg E (fs w1) pdf_path default_cover_path default_dpi)
    as [data|e_cover] eqn:Hjpeg; [discriminate|].
  destruct (page_texts E (fs w1) pdf_path (password args))
    as [texts|e_text] eqn:Htexts; [discriminate|].
  exists e_cover, e_text. split; [done|]. split; [done|]. cbv zeta.
  rewrite main_eq. f_equal.
  unfold conversions.
  replace ((length (input_files args) =? 1)%nat) with false
    by (symmetry; apply Nat.eqb_neq; lia).
  simpl andb. cbv iota.
  rewrite Hfiles, fmap_app, foldl_app, fmap_cons. simpl foldl.
  fold w1. f_equal.
  unfold convert_step at 1. simpl fst. simpl snd.
  by rewrite (convert_corrupted E pdf_path (password args) (thumbnail args)
                (Some (parsed_metadata E (metadata args))) w1 e_cover e_text
                Hthumb Hjpeg Htexts).
Qed.

(** ** The claims on the test environment *)

(** C2 as stated fails: in a batch of three files, [bad.pdf] is unreadable
    for the cover renderer and for the text extractor, no [bad.epub] exists
    beforehand, and the run leaves a [bad.epub] holding the placeholder
    paragraph, next to the outputs of the two readable inputs. *)
Lemma corrupted_input_still_gets_epub :
  batch Demo.batch_args = true
  /\ input_files Demo.batch_args = [lit "a.pdf"; lit "bad.pdf"; lit "c.pdf"]
  /\ corrupted Demo.env Demo.disk (lit "bad.pdf") None = true
  /\ fs Demo.world !! lit "bad.epub" = None
  /\ fs (main Demo.env Demo.batch_args Demo.world).2 !! lit "bad.epub"
     = Some (File (lit "EPUB bad.pdf: <p>No textual content could be extracted from this PDF.</p>"))
  /\ fs (main Demo.env Demo.batch_args Demo.world).2 !! lit "a.epub"
     = Some (File (lit "EPUB a.pdf: <p>line1</p><p>line2</p>"))
  /\ fs (main Demo.env Demo.batch_args Demo.world).2 !! lit "c.epub"
     = Some (File (lit "EPUB c.pdf: <p>third</p>")).
Proof. repeat split; by vm_compute. Qed.

(** The amended C2 on the batch of three: [bad.pdf] comes second, is
    corrupted in the world its turn starts from, and gets its placeholder
    EPUB before [c.pdf] is converted. *)
Lemma corrupted_input_witness :
  batch Demo.batch_args = true
  /\ input_files Demo.batch_args = [lit "a.pdf"] ++ lit "bad.pdf" :: [lit "c.pdf"]
  /\ (1 < length (input_files Demo.batch_args))%nat
  /\ truthy (thumbnail Demo.batch_args) = false
  /\ corrupted Demo.env
       (fs (foldl (convert_step Demo.env Demo.batch_args) Demo.world
              [(lit "a.pdf", None)]))
       (lit "bad.pdf") (password Demo.batch_args) = true
  /\ exists w3,
       main Demo.env Demo.batch_args Demo.world
       = (Ok tt, foldl (convert_step Demo.env Demo.batch_args) w3 [(lit "c.pdf", None)])
       /\ fs w3 !! lit "bad.epub"
          = Some (File (lit "EPUB bad.pdf: <p>No textual content could be extracted from this PDF.</p>")).
Proof.
  assert (Hlen : (1 < length (input_files Demo.batch_args))%nat)
    by (vm_compute; lia).
  assert (Hcorrupted :
    corrupted Demo.env
      (fs (foldl (convert_step Demo.env Demo.batch_args) Demo.world
             [(lit "a.pdf", None)]))
      (lit "bad.pdf") (password Demo.batch_args) = true)
    by (vm_compute; reflexivity).
  split; [reflexivity|]. split; [reflexivity|]. split; [exact Hlen|].
  split; [reflexivity|]. split; [exact Hcorrupted|].
  destruct (corrupted_input_converted_with_placeholder Demo.env Demo.batch_args
              Demo.world [lit "a.pdf"] (lit "bad.pdf") [lit "c.pdf"]
              eq_refl eq_refl Hlen eq_refl Hcorrupted)
    as (e_cover & e_text & _ & _ & Hmain).
  eexists. split; [exact Hmain|].
  vm_compute. reflexivity.
Defined.

(** C3 as stated fails: with the batch flag set, one input file and
    [--output custom.epub], the EPUB goes to [custom.epub] and not to the
    derived [a.epub]. *)
Lemma batch_flag_keeps_explicit_output :
  batch Demo.single_batch_args = true
  /\ input_files Demo.single_batch_args = [lit "a.pdf"]
  /\ output Demo.single_batch_args = Some (lit "custom.epub")
  /\ target (lit "a.pdf") None = lit "a.epub"
  /\ fs (main Demo.env Demo.single_batch_args Demo.world).2 !! lit "custom.epub"
     = Some (File (lit "EPUB a.pdf: <p>line1</p><p>line2</p>"))
  /\ fs (main Demo.env Demo.single_batch_args Demo.world).2 !! lit "a.epub" = None.
Proof. repeat split; by vm_compute. Qed.

(** The amended C3 on one input with [--output custom.epub] and no batch
    flag: the one conversion is asked for [custom.epub], and the file it
    leaves there holds what the writer produced. *)
Lemma explicit_output_written :
  conversions DemoWriters.single_args
  = [(lit "a.pdf", Some (lit "custom.epub"))]
  /\ target (lit "a.pdf") (Some (lit "custom.epub")) = lit "custom.epub"
  /\ main Demo.env DemoWriters.single_args Demo.world
     = (Ok tt, foldl (convert_step Demo.env DemoWriters.single_args) Demo.world
                 [(lit "a.pdf", Some (lit "custom.epub"))])
  /\ fs (convert_body Demo.env (lit "a.pdf") (Some (lit "custom.epub")) None None
           (Some []) Demo.world).2 !! lit "custom.epub"
     = Some (File (lit "EPUB a.pdf: <p>line1</p><p>line2</p>")).
Proof.
  destruct (output_honored_for_single_input Demo.env DemoWriters.single_args
              Demo.world) as (Hmain & Hconversions & Htarget & _ & Hwritten).
  split; [exact Hconversions|].
  split; [exact (Htarget (lit "a.pdf") 99%N (lit "ustom.epub"))|].
  split; [exact Hmain|].
  destruct (Hwritten (lit "a.pdf") (Some (lit "custom.epub")) None None (Some [])
              Demo.world
              (Demo.book_of
                 (convert_body Demo.env (lit "a.pdf") (Some (lit "custom.epub"))
                    None None (Some []) Demo.world))
              (convert_body Demo.env (lit "a.pdf") (Some (lit "custom.epub"))
                 None None (Some []) Demo.world).2
              ltac:(vm_compute; reflexivity))
    as (data & Hwrite & Hdata).
  vm_compute in Hwrite. injection Hwrite as <-.
  exact Hdata.
Defined.

(** C4 as stated fails on a text of two blank lines: it has two lines, and
    the chapter holds the one placeholder paragraph instead of two empty
    paragraphs. *)
Lemma blank_lines_get_placeholder :
  splitlines (newline ++ newline) = [[]; []]
  /\ match create_epub_from_text (newline ++ newline) None (lit "t") (lit "a")
             None Demo.world with
     | (Ok book, _) =>
         filter is_chapter (book_items book) = [chapter [paragraph placeholder]]
         /\ filter is_chapter (book_items book)
            <> [chapter (paragraph <$> splitlines (newline ++ newline))]
     | (Raise _, _) => False
     end.
Proof.
  split; [by vm_compute|].
  split; [by vm_compute|].
  intros H. vm_compute in H. discriminate H.
Qed.

(** The amended C4 on ["line1\nline2"]: two lines, two paragraphs. *)
Lemma two_lines_two_paragraphs :
  blank (lit "line1" ++ newline ++ lit "line2") = false
  /\ splitlines (lit "line1" ++ newline ++ lit "line2") = [lit "line1"; lit "line2"]
  /\ soup_str (paragraph <$> splitlines (lit "line1" ++ newline ++ lit "line2"))
     = lit "<p>line1</p><p>line2</p>".
Proof.
  split; [reflexivity|].
  destruct (chapter_one_paragraph_per_line (lit "line1" ++ newline ++ lit "line2")
              None (lit "t") (lit "a") None Demo.world eq_refl)
    as (_ & _ & _ & _ & _ & H).
  exact (H eq_refl).
Defined.

(** C5 on a text of spaces and a newline. *)
Lemma white_space_gives_placeholder :
  blank (lit "  " ++ newline ++ lit " ") = true
  /\ match create_epub_from_text (lit "  " ++ newline ++ lit " ") None
             (lit "t") (lit "a") None Demo.world with
     | (Ok book, w') =>
         filter is_chapter (book_items book) = [chapter [paragraph placeholder]]
         /\ w' = logged Demo.world [record WARNING
                   (lit "No text content extracted. Adding placeholder paragraph.")]
     | (Raise e, w') =>
         truthy (None : option str) = true
         /\ open_rb (fs Demo.world) (default [] None) = Raise e
     end.
Proof.
  split; [reflexivity|].
  exact (proj1 (blank_text_gives_placeholder_paragraph
                  (lit "  " ++ newline ++ lit " ") None (lit "t") (lit "a")
                  None Demo.world eq_refl)).
Defined.

(** C8 on the conversion of [a.pdf] with the Moby Dick metadata. *)
Lemma moby_dick_by_melville :
  convert_body Demo.env (lit "a.pdf") None None None (Some Demo.moby) Demo.world
  = (Ok (Demo.book_of
           (convert_body Demo.env (lit "a.pdf") None None None (Some Demo.moby)
              Demo.world)),
     (convert_body Demo.env (lit "a.pdf") None None None (Some Demo.moby)
        Demo.world).2)
  /\ book_title
       (Demo.book_of
          (convert_body Demo.env (lit "a.pdf") None None None (Some Demo.moby)
             Demo.world))
     = lit "Moby Dick"
  /\ book_authors
       (Demo.book_of
          (convert_body Demo.env (lit "a.pdf") None None None (Some Demo.moby)
             Demo.world))
     = [lit "Melville"].
Proof.
  assert (H :
    convert_body Demo.env (lit "a.pdf") None None None (Some Demo.moby) Demo.world
    = (Ok (Demo.book_of
             (convert_body Demo.env (lit "a.pdf") None None None (Some Demo.moby)
                Demo.world)),
       (convert_body Demo.env (lit "a.pdf") None None None (Some Demo.moby)
          Demo.world).2))
    by (vm_compute; reflexivity).
  split; [exact H|].
  destruct (title_author_from_metadata_or_defaults _ _ _ _ _ _ _ _ _ H)
    as (_ & _ & Hmoby).
  exact (Hmoby eq_refl).
Defined.

(** ** More about the program: the log *)

Lemma appends_refl ok w : appends ok w w.
Proof. exists []. split; [by rewrite app_nil_r|constructor]. Qed.

Lemma appends_trans ok w1 w2 w3 :
  appends ok w1 w2 -> appends ok w2 w3 -> appends ok w1 w3.
Proof.
  intros (r1 & H1 & F1) (r2 & H2 & F2). exists (r1 ++ r2). split.
  - by rewrite H2, H1, app_assoc.
  - by apply Forall_app.
Qed.

Lemma appends_logged ok w records :
  Forall (fun r => ok r = true) records -> appends ok w (logged w records).
Proof. intros H. by exists records. Qed.

Lemma appends_written ok w path data : appends ok w (written w path data).
Proof. exists []. split; [simpl; by rewrite app_nil_r|constructor]. Qed.

Lemma reported_error_records msg e :
  Forall (fun r => reported r = true) (error_records msg e).
Proof. repeat constructor. Qed.

Lemma cover_choice_appends E pdf_path custom_cover w :
  appends reported w (cover_choice E pdf_path custom_cover w).2.
Proof.
  unfold cover_choice.
  destruct (truthy custom_cover && os_path_exists (fs w) (default [] custom_cover)).
  - apply appends_logged. by repeat constructor.
  - destruct (cover_jpeg E (fs w) pdf_path default_cover_path default_dpi).
    + eapply appends_trans; [apply appends_written|].
      apply appends_logged. by repeat constructor.
    + apply appends_logged, reported_error_records.
Qed.

Lemma text_extraction_appends E pdf_path password w :
  appends reported w (text_extraction E pdf_path password w).2.
Proof.
  unfold text_extraction.
  destruct (page_texts E (fs w) pdf_path password).
  - apply appends_logged. by repeat constructor.
  - apply appends_logged, reported_error_records.
Qed.

Lemma create_epub_from_text_appends text_content cover_image title author metadata w :
  appends reported w
    (create_epub_from_text text_content cover_image title author metadata w).2.
Proof.
  rewrite create_epub_from_text_eq. cbv zeta.
  assert (H : appends reported w
    (if blank text_content
     then logged w [record WARNING
            (lit "No text content extracted. Adding placeholder paragraph.")]
     else w)).
  { destruct (blank text_content); [|apply appends_refl].
    apply appends_logged. by repeat constructor. }
  destruct (truthy cover_image && os_path_exists (fs w) (default [] cover_image));
    [destruct (open_rb (fs w) (default [] cover_image))|]; exact H.
Qed.

Lemma convert_body_appends E pdf_path output_path password custom_cover metadata w :
  appends reported w
    (convert_body E pdf_path output_path password custom_cover metadata w).2.
Proof.
  rewrite convert_body_eq.
  pose proof (cover_choice_appends E pdf_path custom_cover w) as Hc.
  destruct (cover_choice E pdf_path custom_cover w) as [cover_image w1].
  pose proof (text_extraction_appends E pdf_path password w1) as Ht.
  destruct (text_extraction E pdf_path password w1) as [text_content w2].
  pose proof (create_epub_from_text_appends text_content cover_image
                (derived_title pdf_path metadata) (derived_author metadata)
                metadata w2) as Hb.
  destruct (create_epub_from_text _ _ _ _ _ _) as [[book|e] w3]; simpl in *.
  - assert (H3 : appends reported w w3)
      by (eapply appends_trans; [|exact Hb]; eapply appends_trans; eauto).
    destruct (write_epub E _ _ _); simpl; [|exact H3].
    eapply appends_trans; [exact H3|].
    eapply appends_trans; [apply appends_written|].
    apply appends_logged. by repeat constructor.
  - eapply appends_trans; [|exact Hb]. eapply appends_trans; eauto.
Qed.

Lemma convert_step_appends E args w c :
  appends reported w (convert_step E args w c).
Proof.
  unfold convert_step. rewrite convert_pdf_to_epub_eq.
  pose proof (convert_body_appends E c.1 c.2 (password args) (thumbnail args)
                (Some (parsed_metadata E (metadata args))) w) as H.
  destruct (convert_body _ _ _ _ _ _ _) as [[book|e] w']; simpl in *; [exact H|].
  eapply appends_trans; [exact H|].
  apply appends_logged, reported_error_records.
Qed.

Lemma foldl_convert_step_appends E args cs w :
  appends reported w (foldl (convert_step E args) w cs).
Proof.
  revert w. induction cs as [|c cs IH]; intros w; simpl; [apply appends_refl|].
  eapply appends_trans; [apply convert_step_appends|apply IH].
Qed.

(** X1.  A run of [main] only ever appends to the log, and every record it
    appends has level INFO, WARNING or ERROR: both handlers emit it, and no
    DEBUG record (such as the one [save_epub] asks for) is ever handed to a
    handler, although the file handler is set to DEBUG. *)
Theorem main_appends_reported_records E args w :
  exists records,
    log (main E args w).2 = log w ++ records
    /\ Forall (fun r => reported r = true
                        /\ emits stream_level r = true
                        /\ emits file_level r = true) records.
Proof.
  rewrite main_eq. simpl.
  destruct (foldl_convert_step_appends E args (conversions args) w)
    as (records & Hlog & Hrec).
  exists records. split; [exact Hlog|].
  eapply Forall_impl; [exact Hrec|].
  intros [l msg exc] Hr. unfold reported, emits in *. simpl in *.
  by destruct l.
Qed.

(** ** More about the program: the files it writes *)
Lemma extract_all_with_writers E save write reader_pages :
  extract_all (with_writers E save write) reader_pages
  = extract_all E reader_pages.
Proof.
  induction reader_pages as [|page rest IH]; [done|].
  simpl. by rewrite IH.
Qed.

Lemma page_texts_with_writers E save write files pdf_path password :
  page_texts (with_writers E save write) files pdf_path password
  = page_texts E files pdf_path password.
Proof.
  unfold page_texts. simpl.
  destruct (PdfReader E files pdf_path) as [reader|e]; [|done].
  unfold mbind, result_bind.
  destruct (if is_encrypted E reader && truthy password
            then decrypt E reader (default [] password) else Ok reader)
    as [reader'|e]; [|done].
  destruct (pages E reader') as [reader_pages|e]; [|done].
  apply extract_all_with_writers.
Qed.

Lemma cover_jpeg_with_writers E save write files pdf_path output_path dpi :
  (forall img format files',
     save img output_path format files'
     = Image_save E img output_path format files') ->
  cover_jpeg (with_writers E save write) files pdf_path output_path dpi
  = cover_jpeg E files pdf_path output_path dpi.
Proof.
  intros Hsave. unfold cover_jpeg. simpl.
  destruct (fitz_open E files pdf_path) as [doc|e]; [|done].
  unfold mbind, result_bind.
  destruct (load_page E doc 0) as [page|e]; [|done].
  destruct (get_pixmap E page dpi) as [pix|e]; [|done].
  destruct (Image_frombytes E _ _ _) as [img|e]; [|done].
  apply Hsave.
Qed.

Lemma convert_body_with_writers E save write pdf_path output_path password
    custom_cover metadata w :
  (forall img format files,
     save img default_cover_path format files
     = Image_save E img default_cover_path format files) ->
  (forall book files,
     write (target pdf_path output_path) book files
     = write_epub E (target pdf_path output_path) book files) ->
  convert_body (with_writers E save write) pdf_path output_path password
    custom_cover metadata w
  = convert_body E pdf_path output_path password custom_cover metadata w.
Proof.
  intros Hsave Hwrite. rewrite !convert_body_eq.
  unfold cover_choice, text_extraction.
  rewrite cover_jpeg_with_writers by done.
  destruct (cover_choice E pdf_path custom_cover w) as [cover_image w1] eqn:Hc.
  unfold cover_choice in Hc. rewrite Hc.
  rewrite page_texts_with_writers.
  destruct (match page_texts E (fs w1) pdf_path password with
            | Ok texts => _ | Raise e => _ end) as [text_content w2].
  destruct (create_epub_from_text _ _ _ _ _ _) as [[book|e] w3]; [|done].
  change (write_epub (with_writers E save write)) with write.
  by rewrite Hwrite.
Qed.

Lemma convert_step_with_writers E save write args w c :
  (forall img format files,
     save img default_cover_path format files
     = Image_save E img default_cover_path format files) ->
  (forall book files,
     write (target c.1 c.2) book files
     = write_epub E (target c.1 c.2) book files) ->
  convert_step (with_writers E save write) args w c = convert_step E args w c.
Proof.
  intros Hsave Hwrite. unfold convert_step.
  rewrite !convert_pdf_to_epub_eq.
  change (parsed_metadata (with_writers E save write) (metadata args))
    with (parsed_metadata E (metadata args)).
  by rewrite convert_body_with_writers.
Qed.

(** X2.  A run of [main] calls [Image.save] on no path but
    [./data/cover.jpg] and [epub.write_epub] on no path but the output paths
    of its conversions: what these two calls would do on any other path has
    no bearing on the run. *)
Theorem main_calls_writers_on_cover_and_outputs_only E save write args w :
  (forall img format files,
     save img default_cover_path format files
     = Image_save E img default_cover_path format files) ->
  (forall c book files,
     c ∈ conversions args ->
     write (target c.1 c.2) book files
     = write_epub E (target c.1 c.2) book files) ->
  main (with_writers E save write) args w = main E args w.
Proof.
  intros Hsave Hwrite. rewrite !main_eq. f_equal.
  assert (Hall : Forall (fun c => forall book files,
                           write (target c.1 c.2) book files
                           = write_epub E (target c.1 c.2) book files)
                   (conversions args)).
  { apply Forall_forall. intros c Hc book files. by apply Hwrite. }
  clear Hwrite. revert w.
  induction Hall as [|c cs Hc Hcs IH]; intros w; [done|].
  simpl. rewrite convert_step_with_writers by done. apply IH.
Qed.


(** ** More about the program: the assembled book *)

(** X4.  The assembler attaches the cover exactly when a non-empty cover
    path is given, exists, and is read: the cover is then called by the base
    name of the path and holds the bytes read.  A path that is empty or does
    not exist is passed over in silence; the assembler raises only when the
    path exists and reading it raises, and then with that exception. *)
Theorem assembler_cover_follows_read text_content cover_image title author
    metadata w :
  match create_epub_from_text text_content cover_image title author metadata w with
  | (Ok book, _) =>
      (truthy cover_image && os_path_exists (fs w) (default [] cover_image) = true
       /\ exists content,
            open_rb (fs w) (default [] cover_image) = Ok content
            /\ book_cover book
               = Some (basename (default [] cover_image), content))
      \/ (truthy cover_image && os_path_exists (fs w) (default [] cover_image)
          = false
          /\ book_cover book = None)
  | (Raise e, _) =>
      truthy cover_image = true
      /\ os_path_exists (fs w) (default [] cover_image) = true
      /\ open_rb (fs w) (default [] cover_image) = Raise e
  end.
Proof.
  rewrite create_epub_from_text_eq. cbv zeta.
  destruct (truthy cover_image) eqn:Htruthy;
    destruct (os_path_exists (fs w) (default [] cover_image)) eqn:Hexists;
    cbn [andb]; try (right; by split).
  destruct (open_rb (fs w) (default [] cover_image)) as [content|e].
  - left. split; [done|]. by exists content.
  - done.
Qed.


(** X5.  Every book the assembler returns has the fixed identifier
    [id_123456] and language [en], one Dublin-Core field per entry of the
    metadata mapping, in the order of the mapping (the [title] and [author]
    entries included), one table-of-contents link to the chapter, and the
    items chapter, NCX, navigation and stylesheet, in that order. *)
Theorem assembler_fixed_parts text_content cover_image title author
    (metadata : option dict) w :
  match create_epub_from_text text_content cover_image title author metadata w with
  | (Ok book, _) =>
      book_identifier book = lit "id_123456"
      /\ book_language book = lit "en"
      /\ book_metadata book
         = (fun '(key, value) => (lit "DC", key, value)) <$> default [] metadata
      /\ book_toc book = [{| link_href := lit "content.xhtml";
                             link_title := lit "Content";
                             link_uid := lit "content" |}]
      /\ exists c1, book_items book = [c1; EpubNcx; EpubNav; stylesheet]
                    /\ is_chapter c1 = true
  | (Raise e, _) =>
      truthy cover_image = true
      /\ open_rb (fs w) (default [] cover_image) = Raise e
  end.
Proof.
  pose proof (create_epub_from_text_inv text_content cover_image title author
                metadata w) as Hinv.
  destruct (create_epub_from_text _ _ _ _ _ _) as [[book|e] w']; [|done].
  destruct Hinv as [[cover ->] _].
  repeat split. eexists. split; reflexivity.
Qed.

(** The chapter of the book a conversion has saved comes from the text the
    extractor handed back after the cover was settled. *)
Lemma convert_body_chapter E pdf_path output_path password custom_cover metadata
    w book w' :
  convert_body E pdf_path output_path password custom_cover metadata w
  = (Ok book, w') ->
  filter is_chapter (book_items book) =
  [chapter (paragraph <$> splitlines (chapter_text
     (text_extraction E pdf_path password
        (cover_choice E pdf_path custom_cover w).2).1))].
Proof.
  rewrite convert_body_eq.
  destruct (cover_choice E pdf_path custom_cover w) as [cover_image w1].
  cbn [snd].
  destruct (text_extraction E pdf_path password w1) as [text_content w2].
  pose proof (create_epub_from_text_inv text_content cover_image
                (derived_title pdf_path metadata) (derived_author metadata)
                metadata w2) as Hinv.
  destruct (create_epub_from_text _ _ _ _ _ _) as [[book'|e] w3]; [|done].
  destruct Hinv as [[cover ->] _].
  destruct (write_epub E _ _ _); [|done].
  intros [= <- _]. reflexivity.
Qed.

(** X6.  When every page with text gives a single line and the text is not
    all white space, the saved book has one paragraph per such page, in page
    order, holding the text of the page; pages without text leave no
    paragraph. *)
Theorem one_paragraph_per_single_line_page E pdf_path output_path password
    custom_cover metadata w book w' texts :
  convert_body E pdf_path output_path password custom_cover metadata w
  = (Ok book, w') ->
  page_texts E (fs (cover_choice E pdf_path custom_cover w).2) pdf_path password
  = Ok texts ->
  Forall (fun line => one_line line = true) (nonempty texts) ->
  blank (join newline (nonempty texts)) = false ->
  filter is_chapter (book_items book) = [chapter (paragraph <$> nonempty texts)].
Proof.
  intros Hbody Htexts Hlines Hblank.
  rewrite (convert_body_chapter _ _ _ _ _ _ _ _ _ Hbody).
  unfold text_extraction. rewrite Htexts. cbn [fst].
  unfold chapter_text. rewrite Hblank.
  rewrite splitlines_join; [done|done|].
  pose proof (nonempty_Forall texts) as Hne.
  intros Hlast. apply last_Some in Hlast as [l' Hl'].
  rewrite Hl' in Hne. apply Forall_app in Hne as [_ Hne].
  by inversion Hne.
Qed.

(** X7.  When the PDF cannot be read or no page has text that is not white
    space, the saved book holds the placeholder paragraph and nothing
    else. *)
Theorem no_text_gives_placeholder_book E pdf_path output_path password
    custom_cover metadata w book w' :
  convert_body E pdf_path output_path password custom_cover metadata w
  = (Ok book, w') ->
  match page_texts E (fs (cover_choice E pdf_path custom_cover w).2)
          pdf_path password with
  | Ok texts => blank (join newline (nonempty texts)) = true
  | Raise _ => True
  end ->
  filter is_chapter (book_items book) = [chapter [paragraph placeholder]].
Proof.
  intros Hbody Htexts.
  rewrite (convert_body_chapter _ _ _ _ _ _ _ _ _ Hbody).
  unfold text_extraction.
  destruct (page_texts E _ pdf_path password) as [texts|e]; cbn [fst].
  - unfold chapter_text. rewrite Htexts. by rewrite splitlines_placeholder.
  - change (chapter_text []) with placeholder. by rewrite splitlines_placeholder.
Qed.

Lemma basename_default_cover_path : basename default_cover_path = lit "cover.jpg".
Proof. by vm_compute. Qed.

(** X8.  The cover of the book a conversion saves: with a custom cover
    path that exists, the bytes of that file under its base name, and the
    cover renderer is not run; otherwise the JPEG just rendered to
    [./data/cover.jpg], read back from disk under the name [cover.jpg];
    and no cover at all when rendering failed, even if an older
    [./data/cover.jpg] is still on disk. *)
Theorem conversion_cover E pdf_path output_path password custom_cover metadata
    w book w' :
  convert_body E pdf_path output_path password custom_cover metadata w
  = (Ok book, w') ->
  book_cover book =
  if truthy custom_cover && os_path_exists (fs w) (default [] custom_cover)
  then match fs w !! default [] custom_cover with
       | Some (File content) =>
           Some (basename (default [] custom_cover), content)
       | _ => None
       end
  else match cover_jpeg E (fs w) pdf_path default_cover_path default_dpi with
       | Ok data => Some (lit "cover.jpg", data)
       | Raise _ => None
       end.
Proof.
  rewrite convert_body_eq. unfold cover_choice.
  destruct (truthy custom_cover && os_path_exists (fs w) (default [] custom_cover))
    eqn:Hcustom.
  - pose proof (text_extraction_fs E pdf_path password
                  (logged w [record INFO (lit "Using custom cover image: "
                                          ++ default [] custom_cover)])) as Hfs.
    destruct (text_extraction E pdf_path password _) as [text_content w2].
    simpl in Hfs.
    rewrite create_epub_from_text_eq. cbv zeta. rewrite Hfs, Hcustom.
    unfold open_rb.
    destruct (fs w !! default [] custom_cover) as [[content|]|]; try done.
    destruct (write_epub E _ _ _); [|done].
    by intros [= <- _].
  - destruct (cover_jpeg E (fs w) pdf_path default_cover_path default_dpi)
      as [data|e].
    + pose proof (text_extraction_fs E pdf_path password
                    (logged (written w default_cover_path data)
                       [record INFO (lit "Cover image generated at: "
                                     ++ default_cover_path)])) as Hfs.
      destruct (text_extraction E pdf_path password _) as [text_content w2].
      simpl in Hfs.
      rewrite create_epub_from_text_eq. cbv zeta. rewrite Hfs.
      unfold os_path_exists, open_rb.
      change (default [] (Some default_cover_path)) with default_cover_path.
      rewrite lookup_insert_eq.
      rewrite bool_decide_eq_true_2 by eauto.
      change (truthy (Some default_cover_path) && true) with true. cbv iota.
      rewrite basename_default_cover_path.
      destruct (write_epub E _ _ _); [|done].
      by intros [= <- _].
    + destruct (text_extraction E pdf_path password _) as [text_content w2].
      rewrite create_epub_from_text_eq. cbv zeta.
      change (truthy None && _) with false. cbv iota.
      destruct (write_epub E _ _ _); [|done].
      by intros [= <- _].
Qed.

(** ** More about the program: the metadata pairs of the command line *)

Lemma split_first_spec c s :
  contains c s = true ->
  s = (split_first c s).1 ++ c :: (split_first c s).2
  /\ contains c (split_first c s).1 = false.
Proof.
  unfold contains. induction s as [|x s IH]; [done|]. simpl.
  destruct (x =? c)%N eqn:Hx.
  - apply N.eqb_eq in Hx as ->. done.
  - rewrite N.eqb_sym, Hx. simpl. intros Hs.
    destruct (IH Hs) as [Heq Hk].
    destruct (split_first c s) as [k v]. simpl in *.
    rewrite N.eqb_sym, Hx. simpl. split; [by f_equal|done].
Qed.

Lemma dict_lookup_set d k v k' :
  dict_lookup (dict_set d k v) k' =
  if decide (k = k') then Some v else dict_lookup d k'.
Proof.
  induction d as [|[k0 v0] d IH]; simpl.
  - done.
  - destruct (decide (k0 = k)) as [->|Hk0]; simpl.
    + by destruct (decide (k = k')).
    + rewrite IH. destruct (decide (k0 = k')) as [->|]; [|done].
      by rewrite decide_False.
Qed.

Lemma dict_set_keys d k v :
  (dict_set d k v).*1 = if decide (k ∈ d.*1) then d.*1 else d.*1 ++ [k].
Proof.
  induction d as [|[k0 v0] d IH].
  - simpl. destruct (decide (k ∈ [])) as [Hin|_]; [|done].
    by apply elem_of_nil in Hin.
  - cbn [dict_set]. destruct (decide (k0 = k)) as [->|Hk0].
    + rewrite !fmap_cons. cbn [fst].
      destruct (decide (k ∈ k :: d.*1)) as [_|Hn]; [done|].
      exfalso. apply Hn. by left.
    + rewrite !fmap_cons, IH. cbn [fst].
      destruct (decide (k ∈ d.*1)) as [Hin|Hin];
        destruct (decide (k ∈ k0 :: d.*1)) as [Hin'|Hin']; try done.
      * exfalso. apply Hin'. by right.
      * apply elem_of_cons in Hin' as [?|?]; congruence.
Qed.

(** One round of the loop over the [-m] pairs. *)
Lemma parsed_metadata_snoc E pairs kv :
  parsed_metadata E (Some (pairs ++ [kv])) =
  if contains equals_sign kv
  then dict_set (parsed_metadata E (Some pairs))
         (lower E (split_first equals_sign kv).1) (split_first equals_sign kv).2
  else parsed_metadata E (Some pairs).
Proof.
  unfold parsed_metadata. simpl. rewrite foldl_app. simpl.
  destruct (contains equals_sign kv); [|done].
  by destruct (split_first equals_sign kv).
Qed.

(** X9.  A metadata pair is cut at its first [=]: the key is what stands
    before it, lower-cased, the value everything after it (further [=]
    included).  The pair sets that key, replacing the value of an earlier
    pair with the same lower-cased key, and leaves every other key as it
    was. *)
Theorem metadata_pair_sets_lowered_key E pairs kv :
  contains equals_sign kv = true ->
  exists k v,
    kv = k ++ equals_sign :: v
    /\ contains equals_sign k = false
    /\ forall k',
         dict_lookup (parsed_metadata E (Some (pairs ++ [kv]))) k' =
         if decide (lower E k = k') then Some v
         else dict_lookup (parsed_metadata E (Some pairs)) k'.
Proof.
  intros Heq. destruct (split_first_spec _ _ Heq) as [Hkv Hk].
  exists (split_first equals_sign kv).1, (split_first equals_sign kv).2.
  split; [exact Hkv|]. split; [exact Hk|].
  intros k'. rewrite parsed_metadata_snoc, Heq. apply dict_lookup_set.
Qed.

Lemma parsed_metadata_filter E pairs :
  parsed_metadata E (Some pairs) =
  parsed_metadata E
    (Some (filter (fun kv => contains equals_sign kv = true) pairs)).
Proof.
  induction pairs as [|kv pairs IH] using rev_ind; [done|].
  rewrite filter_app, parsed_metadata_snoc.
  rewrite filter_cons, filter_nil.
  destruct (decide (contains equals_sign kv = true)) as [Heq|Hne].
  - rewrite parsed_metadata_snoc, Heq. by rewrite IH.
  - rewrite app_nil_r. apply not_true_is_false in Hne. by rewrite Hne.
Qed.

(** X10.  Metadata pairs without [=] are ignored: [main] runs exactly as it
    does with those pairs left off the command line. *)
Theorem main_ignores_pairs_without_equals E args w :
  main E args w =
  main E {| input_files := input_files args; output := output args;
            batch := batch args; password := password args;
            thumbnail := thumbnail args;
            metadata := Some (filter (fun kv => contains equals_sign kv = true)
                                (default [] (metadata args))) |} w.
Proof.
  rewrite !main_eq. f_equal.
  unfold conversions, convert_step. simpl.
  replace (parsed_metadata E
             (Some (filter (fun kv => contains equals_sign kv = true)
                      (default [] (metadata args)))))
    with (parsed_metadata E (metadata args)); [done|].
  destruct (metadata args) as [pairs|]; [apply parsed_metadata_filter|done].
Qed.

Lemma parsed_metadata_NoDup E pairs : NoDup (parsed_metadata E pairs).*1.
Proof.
  destruct pairs as [pairs|]; [|constructor].
  induction pairs as [|kv pairs IH] using rev_ind; [constructor|].
  rewrite parsed_metadata_snoc.
  destruct (contains equals_sign kv); [|exact IH].
  rewrite dict_set_keys.
  destruct (decide (_ ∈ _)) as [Hin|Hin]; [exact IH|].
  apply NoDup_app. split; [exact IH|]. split.
  - intros x Hx Hx'. apply list_elem_of_singleton in Hx' as ->. done.
  - apply NoDup_singleton.
Qed.

(** X11.  The mapping built from the command line has every key once, so a
    book saved with it carries at most one Dublin-Core field per name: of
    several pairs with the same lower-cased key only the last value is
    kept. *)
Theorem command_line_metadata_has_unique_names E pairs pdf_path output_path
    password custom_cover w book w' :
  convert_body E pdf_path output_path password custom_cover
    (Some (parsed_metadata E pairs)) w = (Ok book, w') ->
  NoDup (parsed_metadata E pairs).*1
  /\ (fun field => field.1.2) <$> book_metadata book
     = (parsed_metadata E pairs).*1
  /\ NoDup ((fun field => field.1.2) <$> book_metadata book).
Proof.
  intros Hbody.
  destruct (convert_body_book _ _ _ _ _ _ _ _ _ Hbody) as (paragraphs & cover & ->).
  assert (Hnames :
    (fun field : str * str * str => field.1.2)
      <$> book_metadata (assembled paragraphs cover
            (derived_title pdf_path (Some (parsed_metadata E pairs)))
            (derived_author (Some (parsed_metadata E pairs)))
            (attached (Some (parsed_metadata E pairs))))
    = (parsed_metadata E pairs).*1).
  { simpl. rewrite <- list_fmap_compose. apply list_fmap_ext.
    by intros i [k v] _. }
  split; [apply parsed_metadata_NoDup|]. split; [exact Hnames|].
  rewrite Hnames. apply parsed_metadata_NoDup.
Qed.

(** ** More about the program: the derived output path *)

Lemma rfind_from_absent c s i : contains c s = false -> rfind_from c s i = -1.
Proof.
  unfold contains. revert i. induction s as [|x s IH]; intros i; [done|].
  simpl. intros Hs. apply orb_false_iff in Hs as [Hx Hs].
  rewrite IH by done. simpl. rewrite N.eqb_sym. by rewrite Hx.
Qed.

Lemma rfind_from_app_absent c s t i :
  contains c t = false -> rfind_from c (s ++ t) i = rfind_from c s i.
Proof.
  intros Ht. revert i. induction s as [|x s IH]; intros i; simpl.
  - by apply rfind_from_absent.
  - by rewrite IH.
Qed.

Lemma rfind_from_last c s i :
  0 <= i -> rfind_from c (s ++ [c]) i = i + Z.of_nat (length s).
Proof.
  revert i. induction s as [|x s IH]; intros i Hi; simpl.
  - rewrite N.eqb_refl. lia.
  - rewrite IH by lia.
    destruct (0 <=? i + 1 + Z.of_nat (length s)) eqn:Hle; [lia|].
    apply Z.leb_gt in Hle. lia.
Qed.

Lemma rfind_from_upper c s i :
  0 <= i -> rfind_from c s i < i + Z.of_nat (length s).
Proof.
  revert i. induction s as [|x s IH]; intros i Hi; simpl; [lia|].
  specialize (IH (i + 1) ltac:(lia)).
  destruct (0 <=? rfind_from c s (i + 1)); [lia|].
  destruct (x =? c)%N; lia.
Qed.

(** The index after the last slash of a directory prefix, which is empty
    or ends with a slash, is its length. *)
Lemma rfind_slash_prefix dir rest :
  dir = [] \/ (exists d, dir = d ++ [slash]) ->
  contains slash rest = false ->
  rfind slash (dir ++ rest) + 1 = Z.of_nat (length dir).
Proof.
  intros Hdir Hrest. unfold rfind. rewrite rfind_from_app_absent by done.
  destruct Hdir as [->|[d ->]].
  - reflexivity.
  - rewrite rfind_from_last by lia. rewrite length_app. simpl. lia.
Qed.

Lemma contains_app c s t : contains c (s ++ t) = contains c s || contains c t.
Proof. unfold contains. apply existsb_app. Qed.

(** X12.  For an input path made of a directory prefix, a file name with a
    character other than a dot, and an extension, the derived output path
    is the path with that extension replaced by [.epub]: inputs that differ
    in their extension only are sent to the same output path. *)
Theorem derived_output_replaces_extension dir name ext :
  dir = [] \/ (exists d, dir = d ++ [slash]) ->
  contains slash name = false ->
  existsb (fun c => negb (c =? dot)%N) name = true ->
  contains slash ext = false ->
  contains dot ext = false ->
  target (dir ++ name ++ dot :: ext) None = dir ++ name ++ lit ".epub".
Proof.
  intros Hdir Hname Hnondot Hext_slash Hext_dot.
  unfold target. cbn [truthy]. cbv iota.
  assert (Hsep : rfind slash (dir ++ name ++ dot :: ext) + 1 = Z.of_nat (length dir)).
  { apply rfind_slash_prefix; [done|].
    rewrite contains_app, Hname. simpl.
    unfold contains in *. simpl. by rewrite Hext_slash. }
  assert (Hdot : rfind dot (dir ++ name ++ dot :: ext) = Z.of_nat (length (dir ++ name))).
  { unfold rfind.
    replace (dir ++ name ++ dot :: ext) with (((dir ++ name) ++ [dot]) ++ ext)
      by (by rewrite <- !app_assoc).
    rewrite rfind_from_app_absent by done.
    rewrite rfind_from_last by lia. lia. }
  unfold splitext. cbv zeta. rewrite Hdot.
  replace (rfind slash (dir ++ name ++ dot :: ext))
    with (Z.of_nat (length dir) - 1) by lia.
  replace (Z.of_nat (length dir) - 1 + 1) with (Z.of_nat (length dir)) by lia.
  rewrite length_app.
  replace (Z.to_nat (Z.of_nat (length dir + length name) - Z.of_nat (length dir)))
    with (length name) by lia.
  rewrite !Nat2Z.id.
  rewrite drop_app_length, take_app_length, Hnondot.
  replace (Z.of_nat (length dir) - 1 <? Z.of_nat (length dir + length name))
    with true by (symmetry; apply Z.ltb_lt; lia).
  simpl andb. cbv iota. cbn [fst].
  rewrite <- length_app.
  replace (dir ++ name ++ dot :: ext) with ((dir ++ name) ++ dot :: ext)
    by (by rewrite <- app_assoc).
  rewrite take_app_length. by rewrite <- app_assoc.
Qed.

(** X13.  An input path whose file name has no dot gets [.epub] appended,
    whatever dots its directories contain. *)
Theorem derived_output_appends_without_extension dir name :
  dir = [] \/ (exists d, dir = d ++ [slash]) ->
  contains slash name = false ->
  contains dot name = false ->
  target (dir ++ name) None = dir ++ name ++ lit ".epub".
Proof.
  intros Hdir Hname Hdot.
  unfold target. cbn [truthy]. cbv iota.
  assert (Hsep : rfind slash (dir ++ name) + 1 = Z.of_nat (length dir))
    by (by apply rfind_slash_prefix).
  assert (Hlt : rfind dot (dir ++ name) <= rfind slash (dir ++ name)).
  { unfold rfind in *. rewrite rfind_from_app_absent by done.
    destruct Hdir as [->|[d ->]].
    - simpl. simpl in Hsep. lia.
    - rewrite rfind_from_app_absent by done.
      pose proof (rfind_from_upper dot d 0 ltac:(lia)).
      rewrite length_app in Hsep. simpl in Hsep. lia. }
  unfold splitext. cbv zeta.
  replace (rfind slash (dir ++ name) <? rfind dot (dir ++ name)) with false
    by (symmetry; apply Z.ltb_ge; lia).
  simpl andb. cbv iota. cbn [fst]. by rewrite <- app_assoc.
Qed.

(** ** More about the program: the password *)

(** X14.  The password matters only for a PDF that reports itself
    encrypted, and an empty password counts as none: in both cases the
    extractor does exactly what it does without a password, and never calls
    [decrypt]. *)
Theorem password_used_only_when_encrypted E pdf_path password w :
  truthy password = false
  \/ (forall reader, PdfReader E (fs w) pdf_path = Ok reader ->
                     is_encrypted E reader = false) ->
  extract_pdf_text E pdf_path password w = extract_pdf_text E pdf_path None w
  /\ page_texts E (fs w) pdf_path password =
     (reader ← PdfReader E (fs w) pdf_path;
      reader_pages ← pages E reader;
      extract_all E reader_pages).
Proof.
  intros Hpw.
  assert (Htexts : forall pw,
    truthy pw = false
    \/ (forall reader, PdfReader E (fs w) pdf_path = Ok reader ->
                       is_encrypted E reader = false) ->
    page_texts E (fs w) pdf_path pw =
    (reader ← PdfReader E (fs w) pdf_path;
     reader_pages ← pages E reader;
     extract_all E reader_pages)).
  { intros pw Hcase. unfold page_texts.
    destruct (PdfReader E (fs w) pdf_path) as [reader|e] eqn:Hreader; [|done].
    unfold mbind at 1 4, result_bind.
    replace (is_encrypted E reader && truthy pw) with false; [done|].
    destruct Hcase as [->|Henc].
    - by rewrite andb_false_r.
    - by rewrite (Henc reader eq_refl). }
  split; [|by apply Htexts].
  rewrite !extract_pdf_text_eq.
  rewrite (Htexts password Hpw), (Htexts None (or_introl eq_refl)). done.
Qed.

(** ** More about the program: what the log says about a conversion *)

(** The records a conversion logs before it calls the writer. *)
Lemma convert_body_eq_log E pdf_path output_path password custom_cover metadata w :
  exists records,
    Forall (fun r => r <> record INFO (lit "EPUB successfully saved: "
                                       ++ target pdf_path output_path)) records
    /\ match convert_body E pdf_path output_path password custom_cover metadata w with
       | (Ok _, w') =>
           log w' = log w ++ records
                    ++ [record INFO (lit "EPUB successfully saved: "
                                     ++ target pdf_path output_path)]
       | (Raise _, w') => log w' = log w ++ records
       end.
Proof.
  set (saved := record INFO (lit "EPUB successfully saved: "
                             ++ target pdf_path output_path)).
  rewrite convert_body_eq.
  assert (Hcover : exists r1,
    Forall (fun r => r <> saved) r1
    /\ log (cover_choice E pdf_path custom_cover w).2 = log w ++ r1).
  { unfold cover_choice.
    destruct (truthy custom_cover && os_path_exists (fs w) (default [] custom_cover)).
    - eexists. split; [|reflexivity].
      repeat constructor. subst saved. intros H. vm_compute in H. discriminate H.
    - destruct (cover_jpeg E (fs w) pdf_path default_cover_path default_dpi).
      + eexists. split; [|reflexivity].
        repeat constructor. subst saved. intros H. vm_compute in H. discriminate H.
      + eexists. split; [|reflexivity].
        repeat constructor; subst saved; intros H; discriminate H. }
  destruct Hcover as (r1 & Hr1 & Hlog1).
  destruct (cover_choice E pdf_path custom_cover w) as [cover_image w1].
  simpl in Hlog1.
  assert (Htext : exists r2,
    Forall (fun r => r <> saved) r2
    /\ log (text_extraction E pdf_path password w1).2 = log w1 ++ r2).
  { unfold text_extraction.
    destruct (page_texts E (fs w1) pdf_path password).
    - eexists. split; [|reflexivity].
      repeat constructor. subst saved. intros H.
      apply (f_equal message) in H. apply (f_equal (take 2)) in H.
      vm_compute in H. discriminate H.
    - eexists. split; [|reflexivity].
      repeat constructor; subst saved; intros H; discriminate H. }
  destruct Htext as (r2 & Hr2 & Hlog2).
  destruct (text_extraction E pdf_path password w1) as [text_content w2].
  simpl in Hlog2.
  assert (Hbook : exists r3,
    Forall (fun r => r <> saved) r3
    /\ log (create_epub_from_text text_content cover_image
              (derived_title pdf_path metadata) (derived_author metadata)
              metadata w2).2 = log w2 ++ r3).
  { rewrite create_epub_from_text_eq. cbv zeta.
    assert (H : exists r3,
      Forall (fun r => r <> saved) r3
      /\ log (if blank text_content
              then logged w2 [record WARNING
                     (lit "No text content extracted. Adding placeholder paragraph.")]
              else w2) = log w2 ++ r3).
    { destruct (blank text_content).
      - eexists. split; [|reflexivity].
        repeat constructor. subst saved. intros H. discriminate H.
      - exists []. split; [constructor|by rewrite app_nil_r]. }
    destruct (truthy cover_image && os_path_exists (fs w2) (default [] cover_image));
      [destruct (open_rb (fs w2) (default [] cover_image))|]; exact H. }
  destruct Hbook as (r3 & Hr3 & Hlog3).
  destruct (create_epub_from_text _ _ _ _ _ _) as [[book|e] w3]; simpl in Hlog3.
  - exists (r1 ++ r2 ++ r3). split; [by repeat apply Forall_app_2|].
    destruct (write_epub E _ _ _); simpl;
      rewrite Hlog3, Hlog2, Hlog1; by rewrite <- !app_assoc.
  - exists (r1 ++ r2 ++ r3). split; [by repeat apply Forall_app_2|].
    rewrite Hlog3, Hlog2, Hlog1. by rewrite <- !app_assoc.
Qed.

(** X15.  The log tells how a conversion ended: the record [EPUB
    successfully saved: <output path>] is among the records a conversion
    adds exactly when the EPUB was written, and it is then the last one;
    otherwise the last two records are the failure of the conversion with
    the path of the input file. *)
Theorem log_tells_conversion_outcome E pdf_path output_path password custom_cover
    metadata w :
  exists records,
    Forall (fun r => r <> record INFO (lit "EPUB successfully saved: "
                                       ++ target pdf_path output_path)) records
    /\ match convert_body E pdf_path output_path password custom_cover metadata w with
       | (Ok _, _) =>
           log (convert_pdf_to_epub E pdf_path output_path password custom_cover
                  metadata w).2
           = log w ++ records
             ++ [record INFO (lit "EPUB successfully saved: "
                              ++ target pdf_path output_path)]
       | (Raise e, _) =>
           log (convert_pdf_to_epub E pdf_path output_path password custom_cover
                  metadata w).2
           = log w ++ records
           /\ exists earlier, records = earlier ++ conversion_failure pdf_path e
       end.
Proof.
  destruct (convert_body_eq_log E pdf_path output_path password custom_cover
              metadata w) as (records & Hrecords & Hlog).
  rewrite convert_pdf_to_epub_eq.
  destruct (convert_body _ _ _ _ _ _ _) as [[book|e] w'].
  - exists records. split; [exact Hrecords|exact Hlog].
  - exists (records ++ conversion_failure pdf_path e). split.
    + apply Forall_app_2; [exact Hrecords|].
      repeat constructor; intros H; discriminate H.
    + split; [|by exists records].
      simpl. rewrite Hlog. by rewrite <- app_assoc.
Qed.

(** ** The further properties on the test environment *)

Ltac differ := let H := fresh in intros H; vm_compute in H; discriminate H.

(** X2 on the batch of three, with writers that fail everywhere but on the
    cover and the three output paths. *)
Lemma writers_elsewhere_do_not_matter :
  main DemoWriters.env Demo.batch_args Demo.world
  = main Demo.env Demo.batch_args Demo.world.
Proof.
  apply (main_calls_writers_on_cover_and_outputs_only Demo.env
           (DemoWriters.save_at [default_cover_path])
           (DemoWriters.write_at [lit "a.epub"; lit "bad.epub"; lit "c.epub"])
           Demo.batch_args Demo.world).
  - intros img format files. reflexivity.
  - intros c book files Hc.
    change (conversions Demo.batch_args)
      with [(lit "a.pdf", @None str); (lit "bad.pdf", None); (lit "c.pdf", None)]
      in Hc.
    repeat (apply elem_of_cons in Hc as [->|Hc]); try reflexivity.
    by apply elem_of_nil in Hc.
Defined.


(** X6 on [c.pdf], whose one page reads [third]. *)
Lemma one_page_one_paragraph :
  page_texts Demo.env
    (fs (cover_choice Demo.env (lit "c.pdf") None Demo.world).2) (lit "c.pdf") None
  = Ok [Some (lit "third")]
  /\ filter is_chapter
       (book_items
          (Demo.book_of
             (convert_body Demo.env (lit "c.pdf") None None None None Demo.world)))
     = [chapter [paragraph (lit "third")]].
Proof.
  assert (Htexts :
    page_texts Demo.env
      (fs (cover_choice Demo.env (lit "c.pdf") None Demo.world).2) (lit "c.pdf") None
    = Ok [Some (lit "third")]) by (vm_compute; reflexivity).
  split; [exact Htexts|].
  exact (one_paragraph_per_single_line_page Demo.env (lit "c.pdf") None None None
           None Demo.world
           (Demo.book_of
              (convert_body Demo.env (lit "c.pdf") None None None None Demo.world))
           (convert_body Demo.env (lit "c.pdf") None None None None Demo.world).2
           [Some (lit "third")]
           ltac:(vm_compute; reflexivity) Htexts
           ltac:(repeat constructor) ltac:(vm_compute; reflexivity)).
Defined.

(** X7 on [bad.pdf], which the extractor cannot read. *)
Lemma unreadable_pdf_placeholder_book :
  is_raise (page_texts Demo.env
              (fs (cover_choice Demo.env (lit "bad.pdf") None Demo.world).2)
              (lit "bad.pdf") None) = true
  /\ filter is_chapter
       (book_items
          (Demo.book_of
             (convert_body Demo.env (lit "bad.pdf") None None None None Demo.world)))
     = [chapter [paragraph placeholder]].
Proof.
  split; [vm_compute; reflexivity|].
  exact (no_text_gives_placeholder_book Demo.env (lit "bad.pdf") None None None
           None Demo.world
           (Demo.book_of
              (convert_body Demo.env (lit "bad.pdf") None None None None Demo.world))
           (convert_body Demo.env (lit "bad.pdf") None None None None Demo.world).2
           ltac:(vm_compute; reflexivity) ltac:(vm_compute; exact I)).
Defined.

(** X8 on [a.pdf] without a custom cover: the rendered JPEG is the cover. *)
Lemma generated_cover_embedded :
  book_cover
    (Demo.book_of
       (convert_body Demo.env (lit "a.pdf") None None None None Demo.world))
  = Some (lit "cover.jpg", lit "JFIF" ++ [255; 255; 255]%N).
Proof.
  rewrite (conversion_cover Demo.env (lit "a.pdf") None None None None Demo.world
             (Demo.book_of
                (convert_body Demo.env (lit "a.pdf") None None None None Demo.world))
             (convert_body Demo.env (lit "a.pdf") None None None None Demo.world).2
             ltac:(vm_compute; reflexivity)).
  vm_compute. reflexivity.
Defined.

(** X9 on [-m title=Old noequals TITLE=Moby=Dick]. *)
Lemma last_title_pair_wins :
  contains equals_sign (lit "TITLE=Moby=Dick") = true
  /\ dict_lookup (parsed_metadata DemoCli.env (Some DemoCli.pairs)) (lit "title")
     = Some (lit "Moby=Dick")
  /\ exists k v,
       lit "TITLE=Moby=Dick" = k ++ equals_sign :: v
       /\ contains equals_sign k = false
       /\ forall k',
            dict_lookup (parsed_metadata DemoCli.env (Some DemoCli.pairs)) k' =
            if decide (lower DemoCli.env k = k') then Some v
            else dict_lookup
                   (parsed_metadata DemoCli.env
                      (Some [lit "title=Old"; lit "noequals"])) k'.
Proof.
  split; [reflexivity|]. split; [vm_compute; reflexivity|].
  exact (metadata_pair_sets_lowered_key DemoCli.env
           [lit "title=Old"; lit "noequals"] (lit "TITLE=Moby=Dick") eq_refl).
Defined.

(** X11 on the same pairs and the conversion of [a.pdf]. *)
Lemma one_title_field :
  (fun field => field.1.2)
    <$> book_metadata
          (Demo.book_of
             (convert_body DemoCli.env (lit "a.pdf") None None None
                (Some (parsed_metadata DemoCli.env (Some DemoCli.pairs)))
                Demo.world))
  = [lit "title"].
Proof.
  destruct (command_line_metadata_has_unique_names DemoCli.env
              (Some DemoCli.pairs) (lit "a.pdf") None None None Demo.world
              (Demo.book_of
                 (convert_body DemoCli.env (lit "a.pdf") None None None
                    (Some (parsed_metadata DemoCli.env (Some DemoCli.pairs)))
                    Demo.world))
              (convert_body DemoCli.env (lit "a.pdf") None None None
                 (Some (parsed_metadata DemoCli.env (Some DemoCli.pairs)))
                 Demo.world).2
              ltac:(vm_compute; reflexivity))
    as (_ & Hnames & _).
  rewrite Hnames. vm_compute. reflexivity.
Defined.

(** X12 on [/books/v1.2/moby.pdf]. *)
Lemma moby_pdf_to_moby_epub :
  target (lit "/books/v1.2/moby.pdf") None = lit "/books/v1.2/moby.epub".
Proof.
  exact (derived_output_replaces_extension (lit "/books/v1.2/") (lit "moby")
           (lit "pdf")
           (or_intror (ex_intro _ (lit "/books/v1.2") eq_refl))
           eq_refl eq_refl eq_refl eq_refl).
Defined.

(** X13 on [a.b/c]. *)
Lemma no_extension_appends_epub :
  target (lit "a.b/c") None = lit "a.b/c.epub".
Proof.
  exact (derived_output_appends_without_extension (lit "a.b/") (lit "c")
           (or_intror (ex_intro _ (lit "a.b") eq_refl)) eq_refl eq_refl).
Defined.

(** X14 on [a.pdf], which is not encrypted, with a password given. *)
Lemma password_ignored_for_plain_pdf :
  extract_pdf_text Demo.env (lit "a.pdf") (Some (lit "secret")) Demo.world
  = extract_pdf_text Demo.env (lit "a.pdf") None Demo.world.
Proof.
  exact (proj1 (password_used_only_when_encrypted Demo.env (lit "a.pdf")
                  (Some (lit "secret")) Demo.world
                  (or_intror (fun reader _ => eq_refl)))).
Defined.
